(** * Checkout and authorization core of the storefront API

    A shallow embedding of the GraphQL resolvers of
    [src/resolvers/Mutation.js] and [src/resolvers/Query.js].

    The resolvers are sequences of awaited calls to three collaborators
    (the Prisma binding [ctx.db], the payment client [stripe] and the mail
    transport).  They are embedded as programs of a state-and-exception
    monad over a [World]: the tables of the database together with the log
    of every collaborator call made so far.  A thrown JavaScript exception
    (or a rejected promise that is awaited) ends the resolver and keeps the
    world as it is at that point: nothing is rolled back.

    JavaScript numbers (prices, quantities, totals, millisecond timestamps)
    are embedded as the integers they hold, in [Z].  The total of a cart is
    computed the way JavaScript computes it, with every product and sum
    rounded to a double ([round_double]); the other arithmetic of the
    resolvers (a quantity plus 1, a timestamp plus or minus an hour) stays
    inside the safe-integer range, where doubles are exact.

    A resolver that passes the [info] of the request to the binding gets
    back the row with the fields the client selected.  The resolvers return
    that reply as it is; it is embedded as the row, of which the client sees
    its selection.  Where a resolver itself reads a field of such a reply
    (the order query reads [order.user.id], resetPassword reads
    [updatedUser.id]) the selection is a parameter of the resolver and the
    read goes through it.

    signup is not embedded. *)

From Stdlib Require Import ZArith.
From stdpp Require Import base strings list gmap pretty.

Local Open Scope string_scope.
Local Open Scope Z_scope.
Local Open Scope list_scope.

#[local] Set Warnings "-clear-no-such-hyp".
#[local] Set Warnings "-register-all".

(** ** JavaScript objects *)

(** The values that occur as properties of the objects the resolvers build.
    [VConnect id] is the nested literal [{ connect: { id } }],
    [VSet l] is [{ set: l }]. *)
Inductive value :=
| VNull
| VNum (n : Z)
| VStr (s : string)
| VConnect (id : string)
| VSet (l : list string).

#[global] Instance value_eq_dec : EqDecision value.
Proof. solve_decision. Defined.

(** A plain object: a finite map from property names to values. *)
Abbreviation obj := (gmap string value).

Definition opt_str (o : option string) : value :=
  match o with Some s => VStr s | None => VNull end.

(** [!x] for a string that may be undefined: undefined and the empty string
    are falsy. *)
Definition falsy (x : option string) : bool :=
  match x with
  | None => true
  | Some s => bool_decide (s = "")
  end.

(** [a === b] where [a] is a string and [b] may be undefined. *)
Definition strict_eq (a : string) (b : option string) : bool :=
  bool_decide (Some a = b).

(** ** Selections

    A resolver hands the [info] of the request to the binding, and the reply
    then has the fields the client selected and no other.  [info] is
    embedded as the selection set: the selected fields, each with the
    selection made inside it. *)
Inductive field := Field (name : string) (inside : list field).

Abbreviation selection := (list field).

Definition field_name (f : field) : string := match f with Field n _ => n end.
Definition field_inside (f : field) : selection := match f with Field _ s => s end.

Definition subselection (f : string) (info : selection) : option selection :=
  field_inside <$> find (λ x, bool_decide (field_name x = f)) info.

Definition selects (f : string) (info : selection) : bool :=
  bool_decide (is_Some (subselection f info)).

(** The selection of the scalar fields [fs]. *)
Definition select (fs : list string) : selection := map (λ f, Field f []) fs.

(** ** JavaScript numbers

    The double nearest to the integer [x]: [x] itself below 2^53, and above
    it the multiple of the spacing 2^e that is nearest, the even one of two
    that are equally near.  (Doubles overflow at 2^1024; prices and
    quantities are Int columns, far below.) *)
Definition round_double (x : Z) : Z :=
  let a := Z.abs x in
  if a <? 2 ^ 53 then x
  else
    let e := Z.log2 a - 52 in
    let m := 2 ^ e in
    let q := a / m in
    let r := a mod m in
    let q' := if 2 * r <? m then q
              else if m <? 2 * r then q + 1
              else if Z.even q then q else q + 1 in
    Z.sgn x * (q' * m).

(** [a * b] and [a + b] on numbers that hold integers. *)
Definition js_mul (a b : Z) : Z := round_double (a * b).
Definition js_add (a b : Z) : Z := round_double (a + b).

(** ** Exceptions *)

Inductive exn :=
| Error (message : string)
| TypeError (message : string)
| Rejected (service reason : string).

#[global] Instance exn_eq_dec : EqDecision exn.
Proof. solve_decision. Defined.

(** [reply.user.id] in a reply shaped by [info], for a row whose user is
    [owner]: reading [id] of a [user] that was not selected throws, and an
    [id] that was not selected inside [user] is undefined. *)
Definition selected_user_id (info : selection) (owner : string) : exn + option string :=
  match subselection "user" info with
  | None => inl (TypeError "Cannot read property 'id' of undefined")
  | Some user_info => inr (if selects "id" user_info then Some owner else None)
  end.

(** ** Data model: the rows of the four tables *)

Module User.
Record t := mk {
    id : string;
    name : string;
    email : string;
    password : string;
    permissions : list string;
    resetToken : option string;
    resetTokenExpiry : option Z
}.
End User.

Module Item.
Record t := mk {
    id : string;
    title : string;
    description : string;
    price : Z;
    image : option string;
    largeImage : option string;
    user : string
}.
End Item.

Module CartItem.
Record t := mk {
    id : string;
    quantity : Z;
    user : string;
    item : string
}.
End CartItem.

Module Order.
Record t := mk {
    id : string;
    total : Z;
    charge : string;
    items : list obj;
    user : string
}.
End Order.

#[global] Instance user_eq_dec : EqDecision User.t.
Proof. solve_decision. Defined.
#[global] Instance item_eq_dec : EqDecision Item.t.
Proof. solve_decision. Defined.
#[global] Instance cartitem_eq_dec : EqDecision CartItem.t.
Proof. solve_decision. Defined.
#[global] Instance order_eq_dec : EqDecision Order.t.
Proof. solve_decision. Defined.

Record Db := mkDb {
  users : list User.t;
  items : list Item.t;
  cartItems : list CartItem.t;
  orders : list Order.t;
  next_id : nat
}.

(** ** Collaborator calls *)

Inductive UserWhere :=
| ById (id : string)
| ByEmail (email : string).

Inductive DbCall :=
| QueryUser (w : UserWhere)
| QueryUserCart (id : string)
| QueryUsers
| QueryUsersByToken (resetToken : string) (resetTokenExpiry_gte : Z)
| QueryItem (id : string)
| QueryCartItems (user item : string)
| QueryCartItem (id : string)
| QueryOrder (id : string)
| QueryOrders (user : string)
| CreateItem (data : obj)
| UpdateItem (data : obj) (where_id : option value)
| DeleteItem (id : string)
| UpdateUser (w : UserWhere) (data : obj)
| UpdateCartItem (id : string) (data : obj)
| CreateCartItem (data : obj)
| DeleteCartItem (id : string)
| CreateOrder (total : Z) (charge : string) (items : list obj) (user : string)
| DeleteManyCartItems (id_in : list string).

Module ChargeRequest.
Record t := mk { amount : Z; currency : string; source : string }.
End ChargeRequest.

Module Charge.
Record t := mk { id : string; amount : Z }.
End Charge.

Module Mail.
Record t := mk { from : string; to : string; subject : string; html : string }.
End Mail.

Inductive Effect :=
| DbE (c : DbCall)
| StripeE (r : ChargeRequest.t)
| MailE (m : Mail.t)
| CookieE (name token : string) (maxAge : Z)
| ClearCookieE (name : string).

Definition is_db_call (e : Effect) : bool :=
  match e with DbE _ => true | _ => false end.

(** What the surroundings of one request decide: the clock, the crypto
    primitives, the environment variables and the answer of the payment
    service to a charge request. *)
Record Env := mkEnv {
  now : Z;
  bcrypt_hash : string → string;
  jwt_sign : option string → string;
  randomBytes_hex : string;
  FRONTEND_URL : string;
  makeANiceEmail : string → string;
  transport_sendMail : Mail.t → exn + unit;
  stripe_charges_create : ChargeRequest.t → exn + Charge.t
}.

(** ** The monad of resolvers *)

Record World := mkWorld { db : Db; log : list Effect }.

Definition M (A : Type) : Type := World → (exn + A) * World.

Definition ret {A} (a : A) : M A := λ w, (inr a, w).
Definition throw {A} (e : exn) : M A := λ w, (inl e, w).
Definition bind {A B} (m : M A) (k : A → M B) : M B :=
  λ w, match m w with
       | (inl e, w') => (inl e, w')
       | (inr a, w') => k a w'
       end.

Notation "x <- m ;; k" := (bind m (λ x, k))
  (at level 100, m at next level, right associativity,
   format "'[v' x  <-  m  ;;  '/' k ']'").
Notation "m ;;; k" := (bind m (λ _, k))
  (at level 100, right associativity,
   format "'[v' m  ;;;  '/' k ']'").

Definition emit (e : Effect) : M unit :=
  λ w, (inr tt, mkWorld (db w) (log w ++ [e])).
Definition get_db : M Db := λ w, (inr (db w), w).
Definition put_db (d : Db) : M unit := λ w, (inr tt, mkWorld d (log w)).

(** The entries of a log that are calls to the persistence collaborator. *)
Definition db_calls (l : list Effect) : list Effect := filter (λ e, is_db_call e = true) l.

(** ** The persistence collaborator

    [ctx.db] is the Prisma binding.  Its contract, as the resolvers rely on
    it: a query by a unique field returns the row or null; a list query
    returns the matching rows in table order; a mutation addressed by a
    unique field is rejected when no row matches; [connect] is rejected
    when the row to connect does not exist; a payload with a field the
    input type does not have, or of the wrong type, is rejected.  Every
    call is logged before it acts. *)

Definition prisma_rejects {A} (reason : string) : M A := throw (Rejected "prisma" reason).

Definition set_users (us : list User.t) (d : Db) : Db :=
  mkDb us (items d) (cartItems d) (orders d) (next_id d).
Definition set_items (l : list Item.t) (d : Db) : Db :=
  mkDb (users d) l (cartItems d) (orders d) (next_id d).
Definition set_cartItems (l : list CartItem.t) (d : Db) : Db :=
  mkDb (users d) (items d) l (orders d) (next_id d).
Definition set_orders (l : list Order.t) (d : Db) : Db :=
  mkDb (users d) (items d) (cartItems d) l (next_id d).
Definition bump (d : Db) : Db :=
  mkDb (users d) (items d) (cartItems d) (orders d) (S (next_id d)).

Definition gen_id (n : nat) : string := "id" +:+ pretty n.

(** Reading a typed property; [None] when absent or of another type. *)
Definition str_field (k : string) (o : obj) : option string :=
  match o !! k with Some (VStr s) => Some s | _ => None end.
Definition num_field (k : string) (o : obj) : option Z :=
  match o !! k with Some (VNum n) => Some n | _ => None end.
Definition connect_field (k : string) (o : obj) : option string :=
  match o !! k with Some (VConnect i) => Some i | _ => None end.

(** Updating a column from a payload: an absent property keeps the column. *)
Definition upd_str (k : string) (data : obj) (old : string) : option string :=
  match data !! k with
  | None => Some old
  | Some (VStr s) => Some s
  | Some _ => None
  end.
Definition upd_num (k : string) (data : obj) (old : Z) : option Z :=
  match data !! k with
  | None => Some old
  | Some (VNum n) => Some n
  | Some _ => None
  end.
Definition upd_opt_str (k : string) (data : obj) (old : option string) : option (option string) :=
  match data !! k with
  | None => Some old
  | Some (VStr s) => Some (Some s)
  | Some VNull => Some None
  | Some _ => None
  end.
Definition upd_opt_num (k : string) (data : obj) (old : option Z) : option (option Z) :=
  match data !! k with
  | None => Some old
  | Some (VNum n) => Some (Some n)
  | Some VNull => Some None
  | Some _ => None
  end.
Definition upd_set (k : string) (data : obj) (old : list string) : option (list string) :=
  match data !! k with
  | None => Some old
  | Some (VSet l) => Some l
  | Some _ => None
  end.

Definition only_keys (ks : list string) (data : obj) : bool :=
  forallb (λ k, bool_decide (k ∈ ks)) (map fst (map_to_list data)).

Definition find_user (w : UserWhere) (us : list User.t) : option User.t :=
  match w with
  | ById i => find (λ u, bool_decide (User.id u = i)) us
  | ByEmail e => find (λ u, bool_decide (User.email u = e)) us
  end.
Definition matches_user (w : UserWhere) (u : User.t) : bool :=
  match w with
  | ById i => bool_decide (User.id u = i)
  | ByEmail e => bool_decide (User.email u = e)
  end.
Definition find_item (i : string) (l : list Item.t) : option Item.t :=
  find (λ x, bool_decide (Item.id x = i)) l.
Definition find_cartItem (i : string) (l : list CartItem.t) : option CartItem.t :=
  find (λ x, bool_decide (CartItem.id x = i)) l.
Definition find_order (i : string) (l : list Order.t) : option Order.t :=
  find (λ x, bool_decide (Order.id x = i)) l.

(** Replace the first row that satisfies [p]. *)
Fixpoint replace_first {A} (p : A → bool) (new : A) (l : list A) : list A :=
  match l with
  | [] => []
  | x :: l' => if p x then new :: l' else x :: replace_first p new l'
  end.

Definition item_of_data (i : string) (data : obj) : option Item.t :=
  if only_keys ["title"; "description"; "price"; "image"; "largeImage"; "user"] data then
    t ← str_field "title" data;
    d ← str_field "description" data;
    p ← num_field "price" data;
    im ← upd_opt_str "image" data None;
    li ← upd_opt_str "largeImage" data None;
    u ← connect_field "user" data;
    Some (Item.mk i t d p im li u)
  else None.

Definition apply_item_update (data : obj) (it : Item.t) : option Item.t :=
  if only_keys ["title"; "description"; "price"; "image"; "largeImage"] data then
    t ← upd_str "title" data (Item.title it);
    d ← upd_str "description" data (Item.description it);
    p ← upd_num "price" data (Item.price it);
    im ← upd_opt_str "image" data (Item.image it);
    li ← upd_opt_str "largeImage" data (Item.largeImage it);
    Some (Item.mk (Item.id it) t d p im li (Item.user it))
  else None.

Definition apply_user_update (data : obj) (u : User.t) : option User.t :=
  if only_keys ["password"; "resetToken"; "resetTokenExpiry"; "permissions"] data then
    pw ← upd_str "password" data (User.password u);
    rt ← upd_opt_str "resetToken" data (User.resetToken u);
    re ← upd_opt_num "resetTokenExpiry" data (User.resetTokenExpiry u);
    ps ← upd_set "permissions" data (User.permissions u);
    Some (User.mk (User.id u) (User.name u) (User.email u) pw ps rt re)
  else None.

Definition apply_cartItem_update (data : obj) (c : CartItem.t) : option CartItem.t :=
  if only_keys ["quantity"] data then
    q ← upd_num "quantity" data (CartItem.quantity c);
    Some (CartItem.mk (CartItem.id c) q (CartItem.user c) (CartItem.item c))
  else None.

(** Modelled from the spec: the data model file that gives a new CartItem
    its quantity is not part of the sources; the spec has quantity ≥ 1 for a
    row created by add-to-cart, so a row created without a quantity gets 1. *)
Definition cartItem_default_quantity : Z := 1.

Definition cartItem_of_data (i : string) (data : obj) : option CartItem.t :=
  if only_keys ["quantity"; "user"; "item"] data then
    q ← upd_num "quantity" data cartItem_default_quantity;
    u ← connect_field "user" data;
    it ← connect_field "item" data;
    Some (CartItem.mk i q u it)
  else None.

Module CartView.
Record t := mk { id : string; quantity : Z; item : option Item.t }.
End CartView.

Module UserCart.
Record t := mk { id : string; name : string; email : string; cart : list CartView.t }.
End UserCart.

(** The rows of the cart of user [uid], in table order. *)
Definition cart_rows (d : Db) (uid : string) : list CartItem.t :=
  filter (λ c, CartItem.user c = uid) (cartItems d).

(** The nested selection [cart { id quantity item { ... } }]. *)
Definition cart_view (d : Db) (c : CartItem.t) : CartView.t :=
  CartView.mk (CartItem.id c) (CartItem.quantity c) (find_item (CartItem.item c) (items d)).

Definition user_cart (d : Db) (u : User.t) : UserCart.t :=
  UserCart.mk (User.id u) (User.name u) (User.email u)
    (map (cart_view d) (cart_rows d (User.id u))).

(** The filter [{ resetToken, resetTokenExpiry_gte }] on users. *)
Definition token_filter (resetToken : string) (resetTokenExpiry_gte : Z) (u : User.t) : bool :=
  bool_decide (User.resetToken u = Some resetToken) &&
  match User.resetTokenExpiry u with
  | Some e => bool_decide (resetTokenExpiry_gte ≤ e)
  | None => false
  end.

(** *** Queries *)

Definition db_query_user (w : UserWhere) : M (option User.t) :=
  emit (DbE (QueryUser w)) ;;;
  d <- get_db ;;
  ret (find_user w (users d)).

Definition db_query_user_cart (i : string) : M (option UserCart.t) :=
  emit (DbE (QueryUserCart i)) ;;;
  d <- get_db ;;
  ret (user_cart d <$> find_user (ById i) (users d)).

Definition db_query_users : M (list User.t) :=
  emit (DbE QueryUsers) ;;;
  d <- get_db ;;
  ret (users d).

Definition db_query_users_by_token (resetToken : string) (resetTokenExpiry_gte : Z)
  : M (list User.t) :=
  emit (DbE (QueryUsersByToken resetToken resetTokenExpiry_gte)) ;;;
  d <- get_db ;;
  ret (filter (λ u, token_filter resetToken resetTokenExpiry_gte u = true) (users d)).

Definition db_query_item (i : string) : M (option Item.t) :=
  emit (DbE (QueryItem i)) ;;;
  d <- get_db ;;
  ret (find_item i (items d)).

Definition db_query_cartItems (user item : string) : M (list CartItem.t) :=
  emit (DbE (QueryCartItems user item)) ;;;
  d <- get_db ;;
  ret (filter (λ c, CartItem.user c = user ∧ CartItem.item c = item) (cartItems d)).

Definition db_query_cartItem (i : string) : M (option CartItem.t) :=
  emit (DbE (QueryCartItem i)) ;;;
  d <- get_db ;;
  ret (find_cartItem i (cartItems d)).

Definition db_query_order (i : string) : M (option Order.t) :=
  emit (DbE (QueryOrder i)) ;;;
  d <- get_db ;;
  ret (find_order i (orders d)).

Definition db_query_orders (user : string) : M (list Order.t) :=
  emit (DbE (QueryOrders user)) ;;;
  d <- get_db ;;
  ret (filter (λ o, Order.user o = user) (orders d)).

(** *** Mutations *)

Definition user_exists (i : string) (d : Db) : bool :=
  bool_decide (is_Some (find_user (ById i) (users d))).
Definition item_exists (i : string) (d : Db) : bool :=
  bool_decide (is_Some (find_item i (items d))).

Definition db_mutation_createItem (data : obj) : M Item.t :=
  emit (DbE (CreateItem data)) ;;;
  d <- get_db ;;
  match item_of_data (gen_id (next_id d)) data with
  | None => prisma_rejects "invalid ItemCreateInput"
  | Some it =>
      if user_exists (Item.user it) d then
        put_db (set_items (items d ++ [it]) (bump d)) ;;;
        ret it
      else prisma_rejects "no User to connect"
  end.

Definition db_mutation_updateItem (data : obj) (where_id : option value) : M Item.t :=
  emit (DbE (UpdateItem data where_id)) ;;;
  d <- get_db ;;
  match where_id with
  | Some (VStr i) =>
      match find_item i (items d) with
      | None => prisma_rejects "no Item for this id"
      | Some it =>
          match apply_item_update data it with
          | None => prisma_rejects "invalid ItemUpdateInput"
          | Some it' =>
              put_db (set_items (replace_first (λ x, bool_decide (Item.id x = i)) it' (items d)) d) ;;;
              ret it'
          end
      end
  | _ => prisma_rejects "invalid ItemWhereUniqueInput"
  end.

Definition db_mutation_deleteItem (i : string) : M Item.t :=
  emit (DbE (DeleteItem i)) ;;;
  d <- get_db ;;
  match find_item i (items d) with
  | None => prisma_rejects "no Item for this id"
  | Some it =>
      put_db (set_items (filter (λ x, Item.id x ≠ i) (items d)) d) ;;;
      ret it
  end.

Definition db_mutation_updateUser (w : UserWhere) (data : obj) : M User.t :=
  emit (DbE (UpdateUser w data)) ;;;
  d <- get_db ;;
  match find_user w (users d) with
  | None => prisma_rejects "no User for this where"
  | Some u =>
      match apply_user_update data u with
      | None => prisma_rejects "invalid UserUpdateInput"
      | Some u' =>
          put_db (set_users (replace_first (matches_user w) u' (users d)) d) ;;;
          ret u'
      end
  end.

Definition db_mutation_updateCartItem (i : string) (data : obj) : M CartItem.t :=
  emit (DbE (UpdateCartItem i data)) ;;;
  d <- get_db ;;
  match find_cartItem i (cartItems d) with
  | None => prisma_rejects "no CartItem for this id"
  | Some c =>
      match apply_cartItem_update data c with
      | None => prisma_rejects "invalid CartItemUpdateInput"
      | Some c' =>
          put_db (set_cartItems
                    (replace_first (λ x, bool_decide (CartItem.id x = i)) c' (cartItems d)) d) ;;;
          ret c'
      end
  end.

Definition db_mutation_createCartItem (data : obj) : M CartItem.t :=
  emit (DbE (CreateCartItem data)) ;;;
  d <- get_db ;;
  match cartItem_of_data (gen_id (next_id d)) data with
  | None => prisma_rejects "invalid CartItemCreateInput"
  | Some c =>
      if user_exists (CartItem.user c) d && item_exists (CartItem.item c) d then
        put_db (set_cartItems (cartItems d ++ [c]) (bump d)) ;;;
        ret c
      else prisma_rejects "no node to connect"
  end.

Definition db_mutation_deleteCartItem (i : string) : M CartItem.t :=
  emit (DbE (DeleteCartItem i)) ;;;
  d <- get_db ;;
  match find_cartItem i (cartItems d) with
  | None => prisma_rejects "no CartItem for this id"
  | Some c =>
      put_db (set_cartItems (filter (λ x, CartItem.id x ≠ i) (cartItems d)) d) ;;;
      ret c
  end.

Definition db_mutation_createOrder (total : Z) (charge : string) (its : list obj) (user : string)
  : M Order.t :=
  emit (DbE (CreateOrder total charge its user)) ;;;
  d <- get_db ;;
  if user_exists user d then
    let o := Order.mk (gen_id (next_id d)) total charge its user in
    put_db (set_orders (orders d ++ [o]) (bump d)) ;;;
    ret o
  else prisma_rejects "no User to connect".

Definition db_mutation_deleteManyCartItems (id_in : list string) : M nat :=
  emit (DbE (DeleteManyCartItems id_in)) ;;;
  d <- get_db ;;
  put_db (set_cartItems (filter (λ c, CartItem.id c ∉ id_in) (cartItems d)) d) ;;;
  ret (length (filter (λ c, CartItem.id c ∈ id_in) (cartItems d))).

(** ** The other collaborators *)

Definition stripe_charges (env : Env) (r : ChargeRequest.t) : M Charge.t :=
  emit (StripeE r) ;;;
  match stripe_charges_create env r with
  | inl e => throw e
  | inr ch => ret ch
  end.

Definition sendMail (env : Env) (m : Mail.t) : M unit :=
  emit (MailE m) ;;;
  match transport_sendMail env m with
  | inl e => throw e
  | inr _ => ret tt
  end.

(** ** The request context *)

Module Request.
Record t := mk { userId : option string; user : option User.t }.
End Request.

(** Modelled from the spec: [hasPermission] of [src/utils.js] is not part of
    the sources.  The spec (4.2) has it fail with Forbidden unless the
    permission set of the identity intersects the required roles.  Reading
    the permissions of a missing identity is a TypeError. *)
Definition hasPermission (user : option User.t) (permissionsNeeded : list string) : M unit :=
  match user with
  | None => throw (TypeError "Cannot read property 'permissions' of null")
  | Some u =>
      if existsb (λ p, bool_decide (p ∈ permissionsNeeded)) (User.permissions u)
      then ret tt
      else throw (Error "You do not have sufficient permissions")
  end.

(** ** Mutation.js *)

Definition cookie_maxAge : Z := 1000 * 60 * 60 * 24 * 365.

Definition must_be_logged_in : exn := Error "You must be logged in to do that!".

(** [{ ...cartItem.item }] for the selection
    [item { title price id description image largeImage }];
    spreading null gives the empty object. *)
Definition spread_item (it : option Item.t) : obj :=
  match it with
  | None => ∅
  | Some it =>
      <["largeImage" := opt_str (Item.largeImage it)]>
      (<["image" := opt_str (Item.image it)]>
      (<["description" := VStr (Item.description it)]>
      (<["id" := VStr (Item.id it)]>
      (<["price" := VNum (Item.price it)]>
      (<["title" := VStr (Item.title it)]> ∅)))))
  end.

(** The callback of [user.cart.map] in createOrder. *)
Definition order_item (userId : string) (cartItem : CartView.t) : obj :=
  let orderItem :=
    <["user" := VConnect userId]>
    (<["quantity" := VNum (CartView.quantity cartItem)]>
    (spread_item (CartView.item cartItem))) in
  delete "id" orderItem.

(** [user.cart.reduce((tally, cartItem) =>
       tally + cartItem.item.price * cartItem.quantity, tally)];
    a cart item whose item is null throws. *)
Fixpoint reduce_total (cart : list CartView.t) (tally : Z) : exn + Z :=
  match cart with
  | [] => inr tally
  | cartItem :: cart' =>
      match CartView.item cartItem with
      | None => inl (TypeError "Cannot read property 'price' of null")
      | Some it =>
          reduce_total cart'
            (js_add tally (js_mul (Item.price it) (CartView.quantity cartItem)))
      end
  end.

Definition lift {A} (r : exn + A) : M A :=
  match r with inl e => throw e | inr a => ret a end.

Definition nl : string := String (Ascii.ascii_of_nat 10) EmptyString.
Definition dquote : string := String (Ascii.ascii_of_nat 34) EmptyString.

Module Mutations.

Definition createItem (args : obj) (ctx : Request.t) : M Item.t :=
  if falsy (Request.userId ctx) then throw must_be_logged_in
  else
    match Request.userId ctx with
    | None => throw must_be_logged_in
    | Some userId =>
        item <- db_mutation_createItem (args ∪ {[ "user" := VConnect userId ]}) ;;
        ret item
    end.

Definition updateItem (args : obj) (ctx : Request.t) : M Item.t :=
  let updates := args in
  let updates := delete "id" updates in
  db_mutation_updateItem updates (args !! "id").

Definition deleteItem (args_id : string) (ctx : Request.t) : M Item.t :=
  item <- db_query_item args_id ;;
  match item with
  | None => throw (TypeError "Cannot read property 'user' of null")
  | Some item =>
      let ownsItem := strict_eq (Item.user item) (Request.userId ctx) in
      match Request.user ctx with
      | None => throw (TypeError "Cannot read property 'permissions' of undefined")
      | Some user =>
          let hasPermissions :=
            existsb (λ permission, bool_decide (permission ∈ ["ADMIN"; "ITEMDELETE"]))
                    (User.permissions user) in
          if negb ownsItem && hasPermissions
          then throw (Error "You don't have permission to do that!")
          else db_mutation_deleteItem args_id
      end
  end.

Definition signout (ctx : Request.t) : M string :=
  emit (ClearCookieE "token") ;;;
  ret "Goodbye!".

Definition requestReset (env : Env) (args_email : string) (ctx : Request.t) : M string :=
  user <- db_query_user (ByEmail args_email) ;;
  match user with
  | None => throw (Error ("No such user found for email " +:+ args_email))
  | Some user =>
      let resetToken := randomBytes_hex env in
      let resetTokenExpiry := now env + 3600000 in
      res <- db_mutation_updateUser (ByEmail args_email)
               (<["resetTokenExpiry" := VNum resetTokenExpiry]>
                (<["resetToken" := VStr resetToken]> ∅)) ;;
      mailRes <- sendMail env
               (Mail.mk "michielsdiemas@gmail.com" (User.email user)
                  "Your password reset token"
                  (makeANiceEmail env
                     ("Your password email token is here " +:+ nl +:+ nl
                        +:+ " <a href=" +:+ dquote +:+ FRONTEND_URL env
                        +:+ "/reset?resetToken=" +:+ resetToken +:+ dquote
                        +:+ ">Click here to reset</a>"))) ;;
      ret "Thanks!"
  end.

(** The updated user comes back shaped by [info]: its id, which is signed
    into the cookie, is undefined unless the client selected it. *)
Definition resetPassword (info : selection) (env : Env)
    (args_password args_confirmPassword args_resetToken : string)
    (ctx : Request.t) : M User.t :=
  if bool_decide (args_password ≠ args_confirmPassword)
  then throw (Error "Your passwords do not match")
  else
    found <- db_query_users_by_token args_resetToken (now env - 3600000) ;;
    match head found with
    | None => throw (Error "This token is either invalid or expired!")
    | Some user =>
        let password := bcrypt_hash env args_password in
        updatedUser <- db_mutation_updateUser (ByEmail (User.email user))
                         (<["resetTokenExpiry" := VNull]>
                          (<["resetToken" := VNull]>
                          (<["password" := VStr password]> ∅))) ;;
        let updatedUser_id :=
          if selects "id" info then Some (User.id updatedUser) else None in
        let token := jwt_sign env updatedUser_id in
        emit (CookieE "token" token cookie_maxAge) ;;;
        ret updatedUser
    end.

Definition updatePermissions (args_permissions : list string) (args_userId : string)
    (ctx : Request.t) : M User.t :=
  if falsy (Request.userId ctx) then throw must_be_logged_in
  else
    match Request.userId ctx with
    | None => throw must_be_logged_in
    | Some userId =>
        currentUser <- db_query_user (ById userId) ;;
        hasPermission currentUser ["ADMIN"; "PERMISSIONUPDATE"] ;;;
        db_mutation_updateUser (ById args_userId)
          (<["permissions" := VSet args_permissions]> ∅)
    end.

Definition addToCart (args_id : string) (ctx : Request.t) : M CartItem.t :=
  if falsy (Request.userId ctx) then throw must_be_logged_in
  else
    match Request.userId ctx with
    | None => throw must_be_logged_in
    | Some userId =>
        found <- db_query_cartItems userId args_id ;;
        match head found with
        | Some existingCartItem =>
            db_mutation_updateCartItem (CartItem.id existingCartItem)
              (<["quantity" := VNum (CartItem.quantity existingCartItem + 1)]> ∅)
        | None =>
            db_mutation_createCartItem
              (<["item" := VConnect args_id]> (<["user" := VConnect userId]> ∅))
        end
    end.

Definition removeFromCart (args_id : string) (ctx : Request.t) : M CartItem.t :=
  cartItem <- db_query_cartItem args_id ;;
  match cartItem with
  | None => throw (Error "No CartItem Found!")
  | Some cartItem =>
      if negb (strict_eq (CartItem.user cartItem) (Request.userId ctx))
      then throw (Error "Cheating??? :O")
      else db_mutation_deleteCartItem args_id
  end.

Definition createOrder (env : Env) (args_token : string) (ctx : Request.t) : M Order.t :=
  if falsy (Request.userId ctx)
  then throw (Error "You must be logged in to complete this order!")
  else
    match Request.userId ctx with
    | None => throw (Error "You must be logged in to complete this order!")
    | Some userId =>
        user <- db_query_user_cart userId ;;
        match user with
        | None => throw (TypeError "Cannot read property 'cart' of null")
        | Some user =>
            amount <- lift (reduce_total (UserCart.cart user) 0) ;;
            charge <- stripe_charges env (ChargeRequest.mk amount "USD" args_token) ;;
            let orderItems := map (order_item userId) (UserCart.cart user) in
            order <- db_mutation_createOrder (Charge.amount charge) (Charge.id charge)
                       orderItems userId ;;
            let cartItemIds := map CartView.id (UserCart.cart user) in
            db_mutation_deleteManyCartItems cartItemIds ;;;
            ret order
        end
    end.

End Mutations.

(** ** Query.js *)

Module Query.

Definition me (ctx : Request.t) : M (option User.t) :=
  if falsy (Request.userId ctx) then ret None
  else
    match Request.userId ctx with
    | None => ret None
    | Some userId => db_query_user (ById userId)
    end.

Definition users (ctx : Request.t) : M (list User.t) :=
  if falsy (Request.userId ctx) then throw (Error "You must be logged in")
  else
    hasPermission (Request.user ctx) ["ADMIN"; "PERMISSIONUPDATE"] ;;;
    db_query_users.

(** The order comes back shaped by [info]; the ownership check reads
    [order.user.id] from that reply. *)
Definition order (info : selection) (args_id : string) (ctx : Request.t) : M Order.t :=
  if falsy (Request.userId ctx) then throw (Error "You must be logged in")
  else
    order <- db_query_order args_id ;;
    match order with
    | None => throw (TypeError "Cannot read property 'user' of null")
    | Some order =>
        order_user_id <- lift (selected_user_id info (Order.user order)) ;;
        let ownsOrder := bool_decide (order_user_id = Request.userId ctx) in
        match Request.user ctx with
        | None => throw (TypeError "Cannot read property 'permissions' of undefined")
        | Some user =>
            let hasPermissionToSeeOrder := bool_decide ("ADMIN" ∈ User.permissions user) in
            if negb ownsOrder || negb hasPermissionToSeeOrder
            then throw (Error "You do not have permissions to see this order")
            else ret order
        end
    end.

Definition orders (ctx : Request.t) : M (list Order.t) :=
  if falsy (Request.userId ctx) then throw (Error "You must be logged in")
  else
    match Request.userId ctx with
    | None => throw (Error "You must be logged in")
    | Some userId => db_query_orders userId
    end.

End Query.

(** ** A concrete shop, used to run the resolvers *)

Module Shop.

Definition alice : User.t := User.mk "u1" "Alice" "alice@shop.test" "h1" ["USER"] None None.
Definition bob : User.t := User.mk "u2" "Bob" "bob@shop.test" "h2" ["USER"; "ADMIN"] None None.
Definition carol : User.t :=
  User.mk "u3" "Carol" "carol@shop.test" "h3" ["USER"] (Some "tok") (Some 1000).

Definition shoes : Item.t := Item.mk "i1" "Shoes" "Red shoes" 500 (Some "s.jpg") None "u2".
Definition coat : Item.t := Item.mk "i2" "Coat" "Warm coat" 1200 None None "u2".

Definition db0 : Db :=
  mkDb [alice; bob; carol] [shoes; coat]
       [CartItem.mk "c1" 2 "u1" "i1"; CartItem.mk "c2" 1 "u1" "i2"; CartItem.mk "c3" 3 "u2" "i1"]
       [Order.mk "o1" 500 "ch_0" [] "u1"]
       7.

Definition w0 : World := mkWorld db0 [].

Definition as_user (u : User.t) : Request.t := Request.mk (Some (User.id u)) (Some u).
Definition anonymous : Request.t := Request.mk None None.

Definition env_with (stripe : ChargeRequest.t → exn + Charge.t) : Env :=
  mkEnv 3601000 (λ p, "hash:" +:+ p) (λ i, "jwt:" +:+ default "" i) "abcdef"
        "http://shop.test" (λ s, s) (λ _, inr tt) stripe.

Definition accepting : Env := env_with (λ r, inr (Charge.mk "ch_1" (ChargeRequest.amount r))).
Definition declining : Env := env_with (λ _, inl (Rejected "stripe" "Your card was declined.")).

End Shop.

(** The same shop after Bob, who holds ADMIN, bought a coat. *)
Module Backoffice.

Definition db1 : Db :=
  set_orders (orders Shop.db0 ++ [Order.mk "o2" 1200 "ch_2" [] "u2"]) Shop.db0.

Definition w1 : World := mkWorld db1 [].

End Backoffice.

(** A shop with one dear item, of which Alice has 4194305 in her cart: price
    and quantity fit an Int column, their product is odd and above 2^53. *)
Module BigCart.

Definition watch : Item.t :=
  Item.mk "i9" "Watch" "Gold watch" 2147483647 None None "u2".

Definition db2 : Db :=
  mkDb [Shop.alice; Shop.bob] [watch] [CartItem.mk "c9" 4194305 "u1" "i9"] [] 7.

Definition w2 : World := mkWorld db2 [].

End BigCart.

(** ** Notions used to state the properties *)

(** The effects a run adds to the log. *)
Definition effects_of {A} (m : M A) (w : World) : list Effect :=
  drop (length (log w)) (log (m w).2).

Definition log_more (es : list Effect) (w : World) : World :=
  mkWorld (db w) (log w ++ es).

(** Σ price × quantity over a cart, as the spec writes the total. *)
Definition line_total (c : CartView.t) : Z :=
  match CartView.item c with
  | Some it => Item.price it * CartView.quantity c
  | None => 0
  end.

Definition cart_sum (cart : list CartView.t) : Z :=
  foldr (λ c s, line_total c + s) 0 cart.

(** Σ |price × quantity|: below 2^53, no product and no partial sum of the
    total leaves the range in which doubles are exact. *)
Definition cart_abs_sum (cart : list CartView.t) : Z :=
  foldr (λ c s, Z.abs (line_total c) + s) 0 cart.

(** The cart of [uid] as the checkout query returns it. *)
Definition cart_of (d : Db) (uid : string) : list CartView.t :=
  map (cart_view d) (cart_rows d uid).

Definition items_present (cart : list CartView.t) : Prop :=
  Forall (λ c, is_Some (CartView.item c)) cart.

(** The world after a successful checkout of [cart] charged as [ch]. *)
Definition checkout_order (d : Db) (uid : string) (cart : list CartView.t) (ch : Charge.t)
  : Order.t :=
  Order.mk (gen_id (next_id d)) (Charge.amount ch) (Charge.id ch)
    (map (order_item uid) cart) uid.

Definition checkout_db (d : Db) (uid : string) (cart : list CartView.t) (ch : Charge.t) : Db :=
  set_cartItems
    (filter (λ c, CartItem.id c ∉ map CartView.id cart) (cartItems d))
    (set_orders (orders d ++ [checkout_order d uid cart ch]) (bump d)).

(** The snapshot of one cart line, written out field by field. *)
Definition snapshot (userId : string) (quantity : Z) (it : Item.t) : obj :=
  <["title" := VStr (Item.title it)]>
  (<["description" := VStr (Item.description it)]>
  (<["price" := VNum (Item.price it)]>
  (<["image" := opt_str (Item.image it)]>
  (<["largeImage" := opt_str (Item.largeImage it)]>
  (<["quantity" := VNum quantity]>
  (<["user" := VConnect userId]> ∅)))))).

Ltac list_mem := rewrite ?elem_of_app, ?elem_of_cons, ?elem_of_nil; naive_solver.

(** [s] is the snapshot of cart row [c]. *)
Definition line_snapshot (d : Db) (uid : string) (c : CartItem.t) (s : obj) : Prop :=
  ∃ it, find_item (CartItem.item c) (items d) = Some it ∧
        s = snapshot uid (CartItem.quantity c) it.

(** The properties of [s] copied from the live item [it]. *)
Definition copies_item (it : Item.t) (s : obj) : Prop :=
  s !! "title" = Some (VStr (Item.title it)) ∧
  s !! "description" = Some (VStr (Item.description it)) ∧
  s !! "price" = Some (VNum (Item.price it)) ∧
  s !! "image" = Some (opt_str (Item.image it)) ∧
  s !! "largeImage" = Some (opt_str (Item.largeImage it)).

(** [s] has no id, no property beside the copied ones, the quantity and the
    user, and connects to nothing but the user [uid]. *)
Definition detached (uid : string) (s : obj) : Prop :=
  s !! "id" = None ∧
  (∀ k, is_Some (s !! k) →
        k ∈ ["title"; "description"; "price"; "image"; "largeImage"; "quantity"; "user"]) ∧
  (∀ k i, s !! k = Some (VConnect i) → k = "user" ∧ i = uid).

(** [permissions.some(p => roles.includes(p))]. *)
Definition has_role (roles : list string) (u : User.t) : bool :=
  existsb (λ permission, bool_decide (permission ∈ roles)) (User.permissions u).

(** The users a reset with token [tok] at time [now env] can address. *)
Definition reset_candidates (env : Env) (tok : string) (d : Db) : list User.t :=
  filter (λ u, token_filter tok (now env - 3600000) u = true) (users d).

(** [u] after a successful reset to the password [pw]. *)
Definition reset_user (env : Env) (pw : string) (u : User.t) : User.t :=
  User.mk (User.id u) (User.name u) (User.email u) (bcrypt_hash env pw)
          (User.permissions u) None None.

(** A run of [m] leaves the tables as they are. *)
Definition read_only {A} (m : M A) : Prop := ∀ w, db (m w).2 = db w.

(** A run of [m] that ends in an exception leaves the tables as they are. *)
Definition fails_clean {A} (m : M A) : Prop :=
  ∀ w e, (m w).1 = inl e → db (m w).2 = db w.

(** [u] once a reset has been requested for it in [env]. *)
Definition with_reset_token (env : Env) (u : User.t) : User.t :=
  User.mk (User.id u) (User.name u) (User.email u) (User.password u) (User.permissions u)
          (Some (randomBytes_hex env)) (Some (now env + 3600000)).

(** The mail requestReset sends to [u]. *)
Definition reset_mail (env : Env) (u : User.t) : Mail.t :=
  Mail.mk "michielsdiemas@gmail.com" (User.email u) "Your password reset token"
    (makeANiceEmail env
       ("Your password email token is here " +:+ nl +:+ nl
          +:+ " <a href=" +:+ dquote +:+ FRONTEND_URL env
          +:+ "/reset?resetToken=" +:+ randomBytes_hex env +:+ dquote
          +:+ ">Click here to reset</a>")).

(** ** signin

    [bcrypt.compare] is passed in as [compare]. *)

Module Auth.

Definition signin (compare : string → string → bool) (env : Env) (email password : string)
    (ctx : Request.t) : M User.t :=
  user <- db_query_user (ByEmail email) ;;
  match user with
  | None => throw (Error ("No such user found for email " +:+ email))
  | Some user =>
      let valid := compare password (User.password user) in
      if negb valid then throw (Error "Invalid password")
      else
        let token := jwt_sign env (Some (User.id user)) in
        emit (CookieE "token" token cookie_maxAge) ;;;
        ret user
  end.

End Auth.

(** * Properties *)

(** ** The monad *)

Lemma bind_ret_l {A B} (a : A) (k : A → M B) w : bind (ret a) k w = k a w.
Proof. reflexivity. Qed.

Lemma bind_ret_r {A} (m : M A) w : bind m ret w = m w.
Proof. unfold bind, ret. by destruct (m w) as [[e|a] w']. Qed.

Lemma bind_throw {A B} (e : exn) (k : A → M B) w : bind (throw e) k w = (inl e, w).
Proof. reflexivity. Qed.

Lemma bind_assoc {A B C} (m : M A) (k : A → M B) (h : B → M C) w :
  bind (bind m k) h w = bind m (λ a, bind (k a) h) w.
Proof. unfold bind. by destruct (m w) as [[e|a] w']. Qed.

(** ** Lists *)

Lemma replace_first_map {A B} (f : A → B) (p : A → bool) (new : A) (l : list A) :
  (∀ x, x ∈ l → p x = true → f x = f new) →
  map f (replace_first p new l) = map f l.
Proof.
  induction l as [|x l IH]; intros H; simpl; [done|].
  destruct (p x) eqn:Hp; simpl.
  - f_equal. symmetry. apply H; [left | done].
  - f_equal. apply IH. intros y Hy. apply H. by right.
Qed.

Lemma replace_first_elem {A} (p : A → bool) (new : A) (l : list A) x :
  find p l = Some x → new ∈ replace_first p new l.
Proof.
  induction l as [|y l IH]; simpl; [done|].
  destruct (p y); [intros _; left | intros H; right; auto].
Qed.

Lemma replace_first_split {A} (p : A → bool) (new : A) (l : list A) x :
  find p l = Some x →
  ∃ l1 l2, l = l1 ++ x :: l2 ∧ replace_first p new l = l1 ++ new :: l2.
Proof.
  induction l as [|y l IH]; simpl; [done|].
  destruct (p y).
  - intros [= ->]. by exists [], l.
  - intros H. destruct (IH H) as (l1 & l2 & -> & ->). by exists (y :: l1), l2.
Qed.

Lemma head_filter_elem {A} (P : A → Prop) `{∀ x, Decision (P x)} (l : list A) x :
  head (filter P l) = Some x → x ∈ l ∧ P x.
Proof.
  intros H0. assert (x ∈ filter P l) as Hin.
  { destruct (filter P l); simplify_eq/=. by left. }
  apply list_elem_of_filter in Hin. tauto.
Qed.

Lemma head_filter_some {A} (P : A → Prop) `{∀ x, Decision (P x)} (l : list A) x :
  x ∈ l → P x → is_Some (head (filter P l)).
Proof.
  intros Hx HP. assert (x ∈ filter P l) as Hin by (by apply list_elem_of_filter).
  destruct (filter P l); [by apply elem_of_nil in Hin | by eexists].
Qed.

Lemma head_filter_none {A} (P : A → Prop) `{∀ x, Decision (P x)} (l : list A) :
  (∀ x, x ∈ l → ¬ P x) → head (filter P l) = None.
Proof.
  intros Hn. destruct (filter P l) as [|x l'] eqn:E; [done|].
  assert (x ∈ filter P l) as Hin by (rewrite E; left).
  apply list_elem_of_filter in Hin as [HP Hx]. by destruct (Hn x Hx).
Qed.

Lemma find_unique {A} `{EqDecision B} (f : A → B) (l : list A) c :
  NoDup (map f l) → c ∈ l → find (λ x, bool_decide (f x = f c)) l = Some c.
Proof.
  induction l as [|y l IH]; simpl; intros Hnd Hc; [by apply elem_of_nil in Hc|].
  apply NoDup_cons in Hnd as [Hny Hnd].
  apply elem_of_cons in Hc as [<-|Hc].
  - by rewrite bool_decide_eq_true_2.
  - rewrite bool_decide_eq_false_2; [by apply IH|].
    intros Hf. apply Hny. rewrite Hf. by apply (list_elem_of_fmap_2 f).
Qed.

Lemma filter_ext_in {A} (P Q : A → Prop) `{∀ x, Decision (P x)} `{∀ x, Decision (Q x)}
    (l : list A) :
  (∀ x, x ∈ l → P x ↔ Q x) → filter P l = filter Q l.
Proof.
  induction l as [|x l IH]; intros HPQ; [done|].
  rewrite !filter_cons.
  assert (P x ↔ Q x) as Hx by (apply HPQ; left).
  rewrite IH by (intros y Hy; apply HPQ; by right).
  destruct (decide (P x)), (decide (Q x)); naive_solver.
Qed.

Lemma NoDup_map_inj_in {A B} (f : A → B) (l : list A) x y :
  NoDup (map f l) → x ∈ l → y ∈ l → f x = f y → x = y.
Proof.
  induction l as [|a l IH]; simpl; intros Hnd Hx Hy Hf; [by apply elem_of_nil in Hx|].
  apply NoDup_cons in Hnd as [Hna Hnd].
  apply elem_of_cons in Hx as [->|Hx]; apply elem_of_cons in Hy as [->|Hy]; auto.
  - exfalso. apply Hna. rewrite Hf. by apply (list_elem_of_fmap_2 f).
  - exfalso. apply Hna. rewrite <- Hf. by apply (list_elem_of_fmap_2 f).
Qed.

(** ** Running a resolver *)

Lemma effects_of_log_more {A} (m : M A) w r d es :
  m w = (r, mkWorld d (log w ++ es)) → effects_of m w = es.
Proof.
  intros E. unfold effects_of. rewrite E. simpl. by rewrite drop_app_length.
Qed.

Lemma falsy_false uid : uid ≠ "" → falsy (Some uid) = false.
Proof. intros H. simpl. by apply bool_decide_eq_false. Qed.

Lemma find_user_by_id_id i us u : find_user (ById i) us = Some u → User.id u = i.
Proof.
  simpl. intros H. apply find_some in H as [_ H]. by apply bool_decide_eq_true in H.
Qed.

Lemma user_exists_found i d u : find_user (ById i) (users d) = Some u → user_exists i d = true.
Proof. intros H. unfold user_exists. rewrite H. apply bool_decide_eq_true. eauto. Qed.

(** ** Checkout *)

Lemma round_double_exact x : Z.abs x < 2 ^ 53 → round_double x = x.
Proof. intros H. unfold round_double. by rewrite (proj2 (Z.ltb_lt _ _) H). Qed.

Lemma cart_abs_sum_nonneg cart : 0 ≤ cart_abs_sum cart.
Proof. induction cart as [|c cart IH]; simpl; lia. Qed.

Lemma reduce_total_sum cart tally :
  items_present cart → Z.abs tally + cart_abs_sum cart < 2 ^ 53 →
  reduce_total cart tally = inr (tally + cart_sum cart).
Proof.
  intros H. revert tally. induction H as [|c cart [it Hit] _ IH]; intros tally; simpl.
  - intros _. f_equal. lia.
  - intros Hr. pose proof (cart_abs_sum_nonneg cart) as Hn.
    unfold line_total in *. rewrite Hit in *.
    unfold js_add, js_mul.
    rewrite (round_double_exact (Item.price it * CartView.quantity c)) by lia.
    rewrite round_double_exact by lia.
    rewrite IH by lia. f_equal. lia.
Qed.

Lemma reduce_total_inr cart tally n :
  reduce_total cart tally = inr n → items_present cart.
Proof.
  revert tally. induction cart as [|c cart IH]; intros tally; simpl.
  - intros _. constructor.
  - destruct (CartView.item c) as [it|] eqn:E; [|done].
    intros H. constructor; [eauto | by eapply IH].
Qed.

Lemma createOrder_guard env tok ctx w :
  falsy (Request.userId ctx) = true →
  Mutations.createOrder env tok ctx w
  = (inl (Error "You must be logged in to complete this order!"), w).
Proof. intros H. unfold Mutations.createOrder. by rewrite H. Qed.

Lemma createOrder_run env tok ctx w uid :
  Request.userId ctx = Some uid → uid ≠ "" →
  let cart := cart_of (db w) uid in
  Mutations.createOrder env tok ctx w =
    match find_user (ById uid) (users (db w)) with
    | None => (inl (TypeError "Cannot read property 'cart' of null"),
               log_more [DbE (QueryUserCart uid)] w)
    | Some u =>
        match reduce_total cart 0 with
        | inl e => (inl e, log_more [DbE (QueryUserCart uid)] w)
        | inr amount =>
            let req := ChargeRequest.mk amount "USD" tok in
            match stripe_charges_create env req with
            | inl e => (inl e, log_more [DbE (QueryUserCart uid); StripeE req] w)
            | inr ch =>
                (inr (checkout_order (db w) uid cart ch),
                 mkWorld (checkout_db (db w) uid cart ch)
                   (log w ++ [DbE (QueryUserCart uid); StripeE req;
                              DbE (CreateOrder (Charge.amount ch) (Charge.id ch)
                                     (map (order_item uid) cart) uid);
                              DbE (DeleteManyCartItems (map CartView.id cart))]))
            end
        end
    end.
Proof.
  intros Hid Hne cart. unfold Mutations.createOrder. rewrite Hid, (falsy_false _ Hne).
  unfold bind, db_query_user_cart, bind, emit, get_db, ret, log_more. simpl.
  destruct (find (λ u, bool_decide (User.id u = uid)) (users (db w))) as [u|] eqn:Hu;
    simpl; [|done].
  rewrite (find_user_by_id_id uid _ u Hu). fold (cart_of (db w) uid). fold cart.
  destruct (reduce_total cart 0) as [e|amount] eqn:Hred; simpl; [done|].
  unfold stripe_charges, bind, emit. simpl.
  destruct (stripe_charges_create env (ChargeRequest.mk amount "USD" tok)) as [e|ch]; simpl.
  - by rewrite <- app_assoc.
  - unfold db_mutation_createOrder, bind, emit, get_db, put_db. simpl.
    rewrite (user_exists_found uid (db w) u Hu). simpl.
    unfold checkout_db, checkout_order. simpl.
    by rewrite <- !app_assoc.
Qed.

Lemma effects_of_same {A} (m : M A) w r : m w = (r, w) → effects_of m w = [].
Proof. intros E. unfold effects_of. rewrite E. simpl. by rewrite drop_all. Qed.

Lemma effects_of_more {A} (m : M A) w r es : m w = (r, log_more es w) → effects_of m w = es.
Proof. apply effects_of_log_more. Qed.

Lemma userId_cases ctx :
  falsy (Request.userId ctx) = true ∨ ∃ uid, Request.userId ctx = Some uid ∧ uid ≠ "".
Proof.
  destruct (Request.userId ctx) as [uid|]; simpl; [|by left].
  destruct (decide (uid = "")) as [->|Hne]; [by left|]. right. eauto.
Qed.

Lemma order_item_snapshot uid c it :
  CartView.item c = Some it →
  order_item uid c = snapshot uid (CartView.quantity c) it.
Proof.
  intros E. unfold order_item, snapshot, spread_item. rewrite E.
  apply map_eq. intros k.
  destruct (decide (k = "id")) as [->|Hid]; [by vm_compute|].
  rewrite lookup_delete_ne by done.
  rewrite !lookup_insert, !lookup_empty.
  repeat case_decide; simplify_eq; done.
Qed.

(** C1, as amended.  For a checkout by an authenticated identity whose cart
    has Σ |price × quantity| below 2^53, so that JavaScript rounds nothing,
    the only charge requested is the sum of price × quantity over the cart of
    that identity as the checkout query returns it, in USD with the token of
    the caller; when the identity exists and every cart line still has its
    item, that charge is requested and, once accepted, the order is created.
    For every checkout, an order that is returned has as total exactly the
    amount of the charge the payment service answered. *)
Theorem createOrder_total env tok ctx w uid :
  Request.userId ctx = Some uid → uid ≠ "" →
  let cart := cart_of (db w) uid in
  let req := ChargeRequest.mk (cart_sum cart) "USD" tok in
  let run := Mutations.createOrder env tok ctx w in
  (cart_abs_sum cart < 2 ^ 53 →
   ∀ r, StripeE r ∈ effects_of (Mutations.createOrder env tok ctx) w → r = req) ∧
  (∀ o, run.1 = inr o →
     ∃ r ch, StripeE r ∈ effects_of (Mutations.createOrder env tok ctx) w ∧
             stripe_charges_create env r = inr ch ∧
             Order.total o = Charge.amount ch ∧ o ∈ orders (db run.2)) ∧
  (is_Some (find_user (ById uid) (users (db w))) → items_present cart →
   cart_abs_sum cart < 2 ^ 53 →
     StripeE req ∈ effects_of (Mutations.createOrder env tok ctx) w ∧
     ∀ ch, stripe_charges_create env req = inr ch →
       ∃ o, run.1 = inr o ∧ Order.total o = Charge.amount ch ∧
            orders (db run.2) = orders (db w) ++ [o]).
Proof.
  intros Hid Hne cart req run.
  pose proof (createOrder_run env tok ctx w uid Hid Hne) as Hrun.
  cbv zeta in Hrun. fold cart run in Hrun.
  destruct (find_user (ById uid) (users (db w))) as [u|] eqn:Hu.
  2:{ rewrite (effects_of_more _ _ _ _ Hrun). rewrite Hrun. simpl.
      split_and!; [intros _ r; list_mem | done | by intros [? ?]]. }
  destruct (reduce_total cart 0) as [e|n] eqn:Hred.
  { rewrite (effects_of_more _ _ _ _ Hrun). rewrite Hrun. simpl.
    split_and!; [intros _ r; list_mem | done |].
    intros _ Hp Hs. rewrite (reduce_total_sum _ 0 Hp) in Hred; [done | simpl; lia]. }
  assert (cart_abs_sum cart < 2 ^ 53 → n = cart_sum cart) as Hn.
  { intros Hs. apply reduce_total_inr in Hred as Hp.
    rewrite (reduce_total_sum _ 0 Hp) in Hred by (simpl; lia).
    injection Hred as <-. lia. }
  destruct (stripe_charges_create env (ChargeRequest.mk n "USD" tok)) as [e|ch] eqn:Hch.
  { rewrite (effects_of_more _ _ _ _ Hrun). rewrite Hrun. simpl.
    split_and!; [| done |].
    - intros Hs r. unfold req. rewrite <- (Hn Hs). list_mem.
    - intros _ _ Hs. unfold req. rewrite <- (Hn Hs). split; [list_mem | congruence]. }
  rewrite (effects_of_log_more _ _ _ _ _ Hrun). rewrite Hrun. simpl.
  split_and!.
  - intros Hs r. unfold req. rewrite <- (Hn Hs). list_mem.
  - intros o [= <-]. exists (ChargeRequest.mk n "USD" tok), ch.
    split_and!; [list_mem | done | done | list_mem].
  - intros _ _ Hs. unfold req. rewrite <- (Hn Hs). split; [list_mem|].
    intros ch' Hch'. rewrite Hch in Hch'. injection Hch' as <-. eauto.
Qed.

(** C2.  When the charge a checkout requests fails, the checkout ends with
    the error of the payment service and the database is as it was before
    the call: no order created, no cart item deleted. *)
Theorem createOrder_declined env tok ctx w req e :
  StripeE req ∈ effects_of (Mutations.createOrder env tok ctx) w →
  stripe_charges_create env req = inl e →
  (Mutations.createOrder env tok ctx w).1 = inl e ∧
  db (Mutations.createOrder env tok ctx w).2 = db w.
Proof.
  intros Hin Hfail.
  destruct (userId_cases ctx) as [Hf|(uid & Hid & Hne)].
  { rewrite (effects_of_same _ _ _ (createOrder_guard env tok ctx w Hf)) in Hin.
    by apply elem_of_nil in Hin. }
  pose proof (createOrder_run env tok ctx w uid Hid Hne) as Hrun.
  cbv zeta in Hrun.
  destruct (find_user (ById uid) (users (db w))) as [u|].
  2:{ rewrite (effects_of_more _ _ _ _ Hrun) in Hin. revert Hin. list_mem. }
  destruct (reduce_total _ 0) as [e'|n].
  { rewrite (effects_of_more _ _ _ _ Hrun) in Hin. revert Hin. list_mem. }
  destruct (stripe_charges_create env (ChargeRequest.mk _ _ _)) as [e'|ch] eqn:Hch.
  - rewrite (effects_of_more _ _ _ _ Hrun) in Hin. rewrite Hrun. simpl.
    assert (req = ChargeRequest.mk n "USD" tok) as ->
      by (revert Hin; list_mem).
    split; [congruence | done].
  - rewrite (effects_of_log_more _ _ _ _ _ Hrun) in Hin.
    assert (req = ChargeRequest.mk n "USD" tok) as ->
      by (revert Hin; list_mem).
    congruence.
Qed.

Lemma cart_snapshots d uid rows :
  items_present (map (cart_view d) rows) →
  Forall2 (line_snapshot d uid) rows (map (order_item uid) (map (cart_view d) rows)).
Proof.
  induction rows as [|c rows IH]; simpl; intros H; [constructor|].
  apply Forall_cons in H as [[it Hit] H]. constructor; [|by apply IH].
  exists it. split; [done|]. by rewrite (order_item_snapshot uid _ it Hit).
Qed.

Lemma cart_of_ids d uid : map CartView.id (cart_of d uid) = map CartItem.id (cart_rows d uid).
Proof. unfold cart_of. rewrite map_map. done. Qed.

Lemma cart_cleared_by_owner d uid :
  NoDup (map CartItem.id (cartItems d)) →
  filter (λ c, CartItem.id c ∉ map CartItem.id (cart_rows d uid)) (cartItems d)
  = filter (λ c, CartItem.user c ≠ uid) (cartItems d).
Proof.
  intros Hnd. apply filter_ext_in. intros c Hc. unfold cart_rows. split.
  - intros Hn Hu. apply Hn. apply (list_elem_of_fmap_2 CartItem.id).
    by apply list_elem_of_filter.
  - intros Hu Hin. apply list_elem_of_fmap in Hin as (c' & Hid & Hc').
    apply list_elem_of_filter in Hc' as [Hu' Hc'].
    assert (c = c') as -> by (by eapply (NoDup_map_inj_in CartItem.id)).
    done.
Qed.

(** C3.  When the charge a checkout requests succeeds, the checkout returns
    an order and exactly that one order is added to the database; its item
    snapshots are, line by line and in order, the snapshots of the cart rows
    of the identity as they were when the cart was read, each with the
    quantity of its row; and the cart items that remain are exactly those
    whose id is not the id of one of these rows (with ids unique in the
    table: exactly those of other identities).  Users and items are
    untouched. *)
Theorem createOrder_success env tok ctx w req ch :
  StripeE req ∈ effects_of (Mutations.createOrder env tok ctx) w →
  stripe_charges_create env req = inr ch →
  let run := Mutations.createOrder env tok ctx w in
  ∃ uid o,
    Request.userId ctx = Some uid ∧
    run.1 = inr o ∧
    orders (db run.2) = orders (db w) ++ [o] ∧
    Forall2 (line_snapshot (db w) uid) (cart_rows (db w) uid) (Order.items o) ∧
    cartItems (db run.2)
    = filter (λ c, CartItem.id c ∉ map CartItem.id (cart_rows (db w) uid))
             (cartItems (db w)) ∧
    (NoDup (map CartItem.id (cartItems (db w))) →
     cartItems (db run.2) = filter (λ c, CartItem.user c ≠ uid) (cartItems (db w))) ∧
    users (db run.2) = users (db w) ∧ items (db run.2) = items (db w).
Proof.
  intros Hin Hch run.
  destruct (userId_cases ctx) as [Hf|(uid & Hid & Hne)].
  { rewrite (effects_of_same _ _ _ (createOrder_guard env tok ctx w Hf)) in Hin.
    by apply elem_of_nil in Hin. }
  pose proof (createOrder_run env tok ctx w uid Hid Hne) as Hrun.
  cbv zeta in Hrun. fold run in Hrun.
  destruct (find_user (ById uid) (users (db w))) as [u|].
  2:{ rewrite (effects_of_more _ _ _ _ Hrun) in Hin. revert Hin. list_mem. }
  destruct (reduce_total _ 0) as [e'|n] eqn:Hred.
  { rewrite (effects_of_more _ _ _ _ Hrun) in Hin. revert Hin. list_mem. }
  apply reduce_total_inr in Hred.
  destruct (stripe_charges_create env (ChargeRequest.mk _ _ _)) as [e'|ch'] eqn:Hch'.
  { rewrite (effects_of_more _ _ _ _ Hrun) in Hin.
    assert (req = ChargeRequest.mk n "USD" tok) as ->
      by (revert Hin; list_mem).
    congruence. }
  rewrite (effects_of_log_more _ _ _ _ _ Hrun) in Hin.
  assert (req = ChargeRequest.mk n "USD" tok) as ->
    by (revert Hin; list_mem).
  assert (ch' = ch) as -> by congruence.
  exists uid. eexists. rewrite Hrun. simpl.
  split; [done|]. split; [done|]. rewrite <- cart_of_ids.
  split_and!; try done.
  - by apply cart_snapshots.
  - intros Hnd. rewrite cart_of_ids. by apply cart_cleared_by_owner.
Qed.

Lemma snapshot_copies uid q it : copies_item it (snapshot uid q it).
Proof. unfold copies_item. split_and!; by vm_compute. Qed.

Lemma snapshot_attached uid q it :
  snapshot uid q it !! "quantity" = Some (VNum q) ∧
  snapshot uid q it !! "user" = Some (VConnect uid).
Proof. split; by vm_compute. Qed.

Lemma snapshot_detached uid q it : detached uid (snapshot uid q it).
Proof.
  unfold detached. split_and!; [by vm_compute | |].
  - intros k. unfold snapshot. rewrite !lookup_insert, lookup_empty.
    repeat case_decide; simplify_eq; list_mem.
  - intros k i. unfold snapshot. rewrite !lookup_insert, lookup_empty.
    repeat case_decide; simplify_eq; try done; try naive_solver.
    all: destruct (Item.image it), (Item.largeImage it); naive_solver.
Qed.

(** C7.  Every order a checkout returns is stored, and each of its item
    snapshots copies title, description, price, image and largeImage of the
    live item of the cart row, carries the quantity of the row and connects
    to the owning identity, and is detached: it has no id, no other property,
    and connects to no record but the user. *)
Theorem order_snapshots_are_copies env tok ctx w o :
  (Mutations.createOrder env tok ctx w).1 = inr o →
  ∃ uid, Request.userId ctx = Some uid ∧
    o ∈ orders (db (Mutations.createOrder env tok ctx w).2) ∧
    Forall2 (λ c s, ∃ it,
               find_item (CartItem.item c) (items (db w)) = Some it ∧
               copies_item it s ∧
               s !! "quantity" = Some (VNum (CartItem.quantity c)) ∧
               s !! "user" = Some (VConnect uid) ∧
               detached uid s)
            (cart_rows (db w) uid) (Order.items o).
Proof.
  intros Hres.
  destruct (userId_cases ctx) as [Hf|(uid & Hid & Hne)].
  { by rewrite (createOrder_guard env tok ctx w Hf) in Hres. }
  exists uid. split; [done|]. revert Hres.
  rewrite (createOrder_run env tok ctx w uid Hid Hne). cbv zeta.
  destruct (find_user (ById uid) (users (db w))) as [u|]; [|done].
  destruct (reduce_total _ 0) as [e|n] eqn:Hred; [done|].
  destruct (stripe_charges_create env (ChargeRequest.mk n "USD" tok)) as [e|ch]; [done|].
  simpl. intros [= <-]. split; [list_mem|]. simpl.
  apply reduce_total_inr in Hred.
  eapply Forall2_impl; [by apply cart_snapshots|].
  intros c s (it & Hit & ->). exists it.
  pose proof (snapshot_attached uid (CartItem.quantity c) it) as [? ?].
  split_and!; auto using snapshot_copies, snapshot_detached.
Qed.

Lemma createOrder_total_witness :
  Request.userId (Shop.as_user Shop.alice) = Some "u1" ∧ "u1" ≠ "" ∧
  ∃ o, (Mutations.createOrder Shop.accepting "tok_visa" (Shop.as_user Shop.alice) Shop.w0).1
       = inr o ∧ Order.total o = 2200.
Proof.
  assert (Hne : "u1" ≠ "") by done.
  split; [reflexivity|]. split; [done|].
  destruct (createOrder_total Shop.accepting "tok_visa" (Shop.as_user Shop.alice) Shop.w0 "u1"
              eq_refl Hne) as (_ & _ & H).
  destruct H as [_ H].
  - vm_compute. eauto.
  - vm_compute. repeat constructor; eauto.
  - by vm_compute.
  - destruct (H (Charge.mk "ch_1" 2200) eq_refl) as (o & Ho & Ht & _). eauto.
Defined.

(** C1 as stated fails outside the safe-integer range: Alice's cart holds
    4194305 watches at 2147483647, which sum to 9007201398030335; the
    product is rounded to the nearest double, the charge requested is
    9007201398030336, and that is the total of the order. *)
Lemma createOrder_total_rounds :
  let ctx := Shop.as_user Shop.alice in
  let cart := cart_of BigCart.db2 "u1" in
  let run := Mutations.createOrder Shop.accepting "tok_visa" ctx BigCart.w2 in
  Request.userId ctx = Some "u1" ∧
  cart_sum cart = 9007201398030335 ∧
  effects_of (Mutations.createOrder Shop.accepting "tok_visa" ctx) BigCart.w2
    !! 1%nat = Some (StripeE (ChargeRequest.mk 9007201398030336 "USD" "tok_visa")) ∧
  (∀ r, StripeE r ∈ effects_of (Mutations.createOrder Shop.accepting "tok_visa" ctx) BigCart.w2 →
        ChargeRequest.amount r ≠ cart_sum cart) ∧
  ∃ o, run.1 = inr o ∧ Order.total o = 9007201398030336.
Proof.
  simpl. split_and!; try by vm_compute.
  - intros r Hr%list_elem_of_In. vm_compute in Hr.
    destruct Hr as [Hr|[Hr|[Hr|[Hr|[]]]]]; try discriminate Hr.
    injection Hr as <-. by vm_compute.
  - eexists. split; by vm_compute.
Qed.

Lemma createOrder_declined_witness :
  (Mutations.createOrder Shop.declining "tok_visa" (Shop.as_user Shop.alice) Shop.w0).1
  = inl (Rejected "stripe" "Your card was declined.") ∧
  db (Mutations.createOrder Shop.declining "tok_visa" (Shop.as_user Shop.alice) Shop.w0).2
  = Shop.db0.
Proof.
  apply (createOrder_declined Shop.declining "tok_visa" (Shop.as_user Shop.alice) Shop.w0
           (ChargeRequest.mk 2200 "USD" "tok_visa")).
  - apply list_elem_of_In. vm_compute. auto.
  - reflexivity.
Defined.

Lemma createOrder_success_witness :
  ∃ o, (Mutations.createOrder Shop.accepting "tok_visa" (Shop.as_user Shop.alice) Shop.w0).1
       = inr o ∧
       length (Order.items o) = 2%nat ∧
       cartItems (db (Mutations.createOrder Shop.accepting "tok_visa"
                        (Shop.as_user Shop.alice) Shop.w0).2)
       = [CartItem.mk "c3" 3 "u2" "i1"].
Proof.
  destruct (createOrder_success Shop.accepting "tok_visa" (Shop.as_user Shop.alice) Shop.w0
              (ChargeRequest.mk 2200 "USD" "tok_visa") (Charge.mk "ch_1" 2200))
    as (uid & o & Hid & Ho & _ & Hs & Hc & _).
  - apply list_elem_of_In. vm_compute. auto.
  - reflexivity.
  - injection Hid as <-. exists o. split; [done|]. split.
    + apply Forall2_length in Hs. by rewrite <- Hs.
    + rewrite Hc. by vm_compute.
Defined.

Lemma order_snapshots_are_copies_witness :
  ∃ o, (Mutations.createOrder Shop.accepting "tok_visa" (Shop.as_user Shop.alice) Shop.w0).1
       = inr o ∧
       Forall (λ s, s !! "id" = None) (Order.items o).
Proof.
  eexists. split; [by vm_compute|].
  destruct (order_snapshots_are_copies Shop.accepting "tok_visa" (Shop.as_user Shop.alice)
              Shop.w0 _ eq_refl) as (uid & _ & _ & H).
  apply Forall_lookup_2. intros i s Hs.
  destruct (Forall2_lookup_r _ _ _ _ _ H Hs) as (c & _ & it & _ & _ & _ & _ & Hd & _).
  exact Hd.
Defined.

(** ** The permission gates *)

(** What deleteItem does once the item and the identity are there: it
    refuses exactly the callers that do not own the item and do hold ADMIN
    or ITEMDELETE, and deletes for everybody else. *)
Lemma deleteItem_gate i ctx w it u :
  find_item i (items (db w)) = Some it →
  Request.user ctx = Some u →
  Mutations.deleteItem i ctx w =
    if negb (strict_eq (Item.user it) (Request.userId ctx)) && has_role ["ADMIN"; "ITEMDELETE"] u
    then (inl (Error "You don't have permission to do that!"), log_more [DbE (QueryItem i)] w)
    else (inr it,
          mkWorld (set_items (filter (λ x, Item.id x ≠ i) (items (db w))) (db w))
                  (log w ++ [DbE (QueryItem i); DbE (DeleteItem i)])).
Proof.
  intros Hit Hu. unfold Mutations.deleteItem, bind, db_query_item, bind, emit, get_db, ret.
  simpl. rewrite Hit, Hu. fold (has_role ["ADMIN"; "ITEMDELETE"] u).
  destruct (negb _ && _); [done|].
  unfold db_mutation_deleteItem, bind, emit, get_db, put_db, ret. simpl. rewrite Hit. simpl.
  by rewrite <- app_assoc.
Qed.

(** C4.  The code at the failing input: Alice holds only USER and does not
    own the shoes (Bob does), yet her deleteItem returns the item and the
    item is gone from the table. *)
Theorem deleteItem_stranger_deletes :
  let run := Mutations.deleteItem "i1" (Shop.as_user Shop.alice) Shop.w0 in
  find_item "i1" (items Shop.db0) = Some Shop.shoes ∧
  Item.user Shop.shoes ≠ User.id Shop.alice ∧
  has_role ["ADMIN"; "ITEMDELETE"] Shop.alice = false ∧
  run.1 = inr Shop.shoes ∧
  find_item "i1" (items (db run.2)) = None.
Proof. simpl. split_and!; by vm_compute. Qed.

(** What the single-order query does once the order and the identity are
    there.  The order is fetched with the selection of the client, so its
    user and the id of that user are there only when the client asked for
    them: with no user selected the comparison throws, and otherwise the
    order is returned only to a caller that is seen to own it and holds
    ADMIN as well. *)
Lemma order_gate info i ctx w o u :
  falsy (Request.userId ctx) = false →
  find_order i (orders (db w)) = Some o →
  Request.user ctx = Some u →
  Query.order info i ctx w =
    (match selected_user_id info (Order.user o) with
     | inl e => inl e
     | inr order_user_id =>
         if bool_decide (order_user_id = Request.userId ctx)
            && bool_decide ("ADMIN" ∈ User.permissions u)
         then inr o
         else inl (Error "You do not have permissions to see this order")
     end,
     log_more [DbE (QueryOrder i)] w).
Proof.
  intros Hf Ho Hu. unfold Query.order, bind, db_query_order, bind, emit, get_db, ret, throw.
  rewrite Hf. simpl. rewrite Ho. unfold lift, throw, ret.
  destruct (selected_user_id info (Order.user o)) as [e|oid]; [done|].
  rewrite Hu. by destruct (bool_decide (oid = _)), (bool_decide (_ ∈ _)).
Qed.

Lemma selected_user_id_full info owner user_info :
  subselection "user" info = Some user_info → selects "id" user_info = true →
  selected_user_id info owner = inr (Some owner).
Proof. intros H1 H2. unfold selected_user_id. by rewrite H1, H2. Qed.

(** C6.  The code at the failing input: Alice owns order o1 and holds only
    USER; the single-order query refuses her, whatever she selects: with the
    permission error when the user of the order is selected, and with a
    TypeError on the missing user when it is not. *)
Theorem order_refuses_owner_without_admin :
  (∃ o, find_order "o1" (orders Shop.db0) = Some o ∧ Order.user o = User.id Shop.alice) ∧
  ∀ info,
    let run := Query.order info "o1" (Shop.as_user Shop.alice) Shop.w0 in
    run.1 = inl (if selects "user" info
                 then Error "You do not have permissions to see this order"
                 else TypeError "Cannot read property 'id' of undefined").
Proof.
  split; [eexists; split; by vm_compute|]. intros info run. unfold run.
  rewrite (order_gate info "o1" _ Shop.w0 (Order.mk "o1" 500 "ch_0" [] "u1") Shop.alice)
    by done.
  unfold selected_user_id, selects.
  destruct (subselection "user" info) as [ui|] eqn:Hs; simpl.
  - by rewrite andb_false_r.
  - done.
Qed.

(** ** The session guard *)

(** C5, as amended.  With no identity on the request, createItem,
    updatePermissions, addToCart and createOrder end with their
    must-be-logged-in error and leave the world, log included, as it was: no
    collaborator is called.  signout, requestReset and resetPassword never
    read the request: they run the same for every caller. *)
Theorem session_guard ctx :
  falsy (Request.userId ctx) = true →
  (∀ args w, Mutations.createItem args ctx w = (inl must_be_logged_in, w)) ∧
  (∀ ps uid w, Mutations.updatePermissions ps uid ctx w = (inl must_be_logged_in, w)) ∧
  (∀ i w, Mutations.addToCart i ctx w = (inl must_be_logged_in, w)) ∧
  (∀ env tok w, Mutations.createOrder env tok ctx w
                = (inl (Error "You must be logged in to complete this order!"), w)) ∧
  (∀ ctx', Mutations.signout ctx = Mutations.signout ctx') ∧
  (∀ ctx' env email, Mutations.requestReset env email ctx = Mutations.requestReset env email ctx') ∧
  (∀ ctx' info env pw pw' tok,
     Mutations.resetPassword info env pw pw' tok ctx
     = Mutations.resetPassword info env pw pw' tok ctx').
Proof.
  intros Hf. split_and!; try done; intros.
  - unfold Mutations.createItem. by rewrite Hf.
  - unfold Mutations.updatePermissions. by rewrite Hf.
  - unfold Mutations.addToCart. by rewrite Hf.
  - by apply createOrder_guard.
Qed.

Lemma session_guard_witness :
  falsy (Request.userId Shop.anonymous) = true ∧
  Mutations.addToCart "i1" Shop.anonymous Shop.w0 = (inl must_be_logged_in, Shop.w0).
Proof.
  split; [reflexivity|].
  destruct (session_guard Shop.anonymous eq_refl) as (_ & _ & H & _). apply H.
Defined.

(** C5 as stated fails: with no identity on the request, updateItem changes
    the item, resetPassword replaces the password and signout and
    requestReset succeed; deleteItem and removeFromCart do fail, but only
    after they queried the database, and not with the logged-in error. *)
Lemma anonymous_mutations_run :
  let upd := Mutations.updateItem (<["id" := VStr "i1"]> (<["price" := VNum 7]> ∅))
               Shop.anonymous Shop.w0 in
  let rst := Mutations.resetPassword (select ["id"; "email"]) Shop.accepting "pw" "pw" "tok"
               Shop.anonymous Shop.w0 in
  let req := Mutations.requestReset Shop.accepting "alice@shop.test" Shop.anonymous Shop.w0 in
  let del := Mutations.deleteItem "i1" Shop.anonymous Shop.w0 in
  let rem := Mutations.removeFromCart "c1" Shop.anonymous Shop.w0 in
  falsy (Request.userId Shop.anonymous) = true ∧
  ((∃ it, upd.1 = inr it ∧ Item.price it = 7) ∧
   Item.price <$> find_item "i1" (items (db upd.2)) = Some 7 ∧
   length (db_calls (log upd.2)) = 1%nat) ∧
  ((∃ u, rst.1 = inr u ∧ User.password u = "hash:pw") ∧
   length (db_calls (log rst.2)) = 2%nat) ∧
  (req.1 = inr "Thanks!" ∧ length (db_calls (log req.2)) = 2%nat) ∧
  (Mutations.signout Shop.anonymous Shop.w0).1 = inr "Goodbye!" ∧
  (del.1 = inl (TypeError "Cannot read property 'permissions' of undefined") ∧
   length (db_calls (log del.2)) = 1%nat) ∧
  (rem.1 = inl (Error "Cheating??? :O") ∧ length (db_calls (log rem.2)) = 1%nat).
Proof. simpl. split_and!; try (eexists; split); by vm_compute. Qed.

(** ** Updating an item *)

Lemma find_item_id i l it : find_item i l = Some it → Item.id it = i ∧ it ∈ l.
Proof.
  intros H. apply find_some in H as [Hin H]. apply bool_decide_eq_true in H.
  split; [done | by apply list_elem_of_In].
Qed.

Lemma apply_item_update_id data it it' :
  apply_item_update data it = Some it' →
  Item.id it' = Item.id it ∧ Item.user it' = Item.user it ∧
  (∀ t, data !! "title" = Some (VStr t) → Item.title it' = t) ∧
  (∀ t, data !! "description" = Some (VStr t) → Item.description it' = t) ∧
  (∀ p, data !! "price" = Some (VNum p) → Item.price it' = p).
Proof.
  unfold apply_item_update. destruct (only_keys _ data); [|done].
  unfold upd_str, upd_num. intros H.
  destruct (data !! "title") as [[]|], (data !! "description") as [[]|],
    (data !! "price") as [[]|]; simplify_option_eq;
    split_and!; try done; by intros ? [= <-].
Qed.

Lemma updateItem_run args ctx w :
  let data := delete "id" args in
  let call := DbE (UpdateItem data (args !! "id")) in
  Mutations.updateItem args ctx w =
    match args !! "id" with
    | Some (VStr i) =>
        match find_item i (items (db w)) with
        | None => (inl (Rejected "prisma" "no Item for this id"), log_more [call] w)
        | Some it =>
            match apply_item_update data it with
            | None => (inl (Rejected "prisma" "invalid ItemUpdateInput"), log_more [call] w)
            | Some it' =>
                (inr it',
                 mkWorld (set_items (replace_first (λ x, bool_decide (Item.id x = i)) it'
                                       (items (db w))) (db w))
                         (log w ++ [call]))
            end
        end
    | _ => (inl (Rejected "prisma" "invalid ItemWhereUniqueInput"), log_more [call] w)
    end.
Proof.
  unfold Mutations.updateItem, db_mutation_updateItem, bind, emit, get_db, put_db, ret,
    prisma_rejects, throw, log_more. simpl.
  destruct (args !! "id") as [[| |i| |]|]; try done.
  destruct (find_item i (items (db w))) as [it|]; [|done].
  by destruct (apply_item_update _ it).
Qed.

(** C10.  updateItem makes one call to the persistence collaborator, with
    the arguments minus their id as data and the id of the arguments as
    where: the data has no id and agrees with the arguments on every other
    property.  The ids of the items table are the same after the call as
    before, and an item it returns is the one addressed, stored with the
    title, description and price that were supplied. *)
Theorem updateItem_drops_id args ctx w :
  let data := delete "id" args in
  let run := Mutations.updateItem args ctx w in
  effects_of (Mutations.updateItem args ctx) w = [DbE (UpdateItem data (args !! "id"))] ∧
  data !! "id" = None ∧
  (∀ k, k ≠ "id" → data !! k = args !! k) ∧
  map Item.id (items (db run.2)) = map Item.id (items (db w)) ∧
  (∀ it, run.1 = inr it →
     args !! "id" = Some (VStr (Item.id it)) ∧
     it ∈ items (db run.2) ∧
     (∀ v, args !! "title" = Some (VStr v) → Item.title it = v) ∧
     (∀ v, args !! "description" = Some (VStr v) → Item.description it = v) ∧
     (∀ v, args !! "price" = Some (VNum v) → Item.price it = v)).
Proof.
  intros data run.
  pose proof (updateItem_run args ctx w) as Hrun. cbv zeta in Hrun. fold data run in Hrun.
  split_and!.
  - destruct (args !! "id") as [[| |i| |]|];
      try (by rewrite (effects_of_more _ _ _ _ Hrun)).
    destruct (find_item i (items (db w))) as [it|];
      [|by rewrite (effects_of_more _ _ _ _ Hrun)].
    destruct (apply_item_update data it);
      [by rewrite (effects_of_log_more _ _ _ _ _ Hrun)
      |by rewrite (effects_of_more _ _ _ _ Hrun)].
  - apply lookup_delete_eq.
  - intros k Hk. by apply lookup_delete_ne.
  - rewrite Hrun.
    destruct (args !! "id") as [[| |i| |]|]; try done.
    destruct (find_item i (items (db w))) as [it|] eqn:Hit; [|done].
    destruct (apply_item_update data it) as [it'|] eqn:Hup; [|done].
    simpl. apply replace_first_map. intros x _ Hx%bool_decide_eq_true.
    apply apply_item_update_id in Hup as [-> _].
    apply find_item_id in Hit as [-> _]. done.
  - intros it'. rewrite Hrun.
    destruct (args !! "id") as [[| |i| |]|] eqn:Hi; try done.
    destruct (find_item i (items (db w))) as [it|] eqn:Hit; [|done].
    destruct (apply_item_update data it) as [it''|] eqn:Hup; [|done].
    simpl. intros [= ->].
    apply apply_item_update_id in Hup as (Hid & _ & Ht & Hd & Hp).
    apply find_item_id in Hit as Hit'. destruct Hit' as [Hi' _].
    split_and!.
    + by rewrite Hid, Hi'.
    + by eapply replace_first_elem.
    + intros v Hv. apply Ht. unfold data. by rewrite lookup_delete_ne.
    + intros v Hv. apply Hd. unfold data. by rewrite lookup_delete_ne.
    + intros v Hv. apply Hp. unfold data. by rewrite lookup_delete_ne.
Qed.

(** ** Adding to the cart *)

Lemma addToCart_run i ctx w uid :
  Request.userId ctx = Some uid → uid ≠ "" →
  let q := DbE (QueryCartItems uid i) in
  Mutations.addToCart i ctx w =
    match head (filter (λ c, CartItem.user c = uid ∧ CartItem.item c = i)
                       (cartItems (db w))) with
    | Some c =>
        let call := DbE (UpdateCartItem (CartItem.id c)
                           (<["quantity" := VNum (CartItem.quantity c + 1)]> ∅)) in
        match find_cartItem (CartItem.id c) (cartItems (db w)) with
        | None => (inl (Rejected "prisma" "no CartItem for this id"), log_more [q; call] w)
        | Some c0 =>
            let c' := CartItem.mk (CartItem.id c0) (CartItem.quantity c + 1)
                        (CartItem.user c0) (CartItem.item c0) in
            (inr c',
             mkWorld (set_cartItems
                        (replace_first (λ x, bool_decide (CartItem.id x = CartItem.id c)) c'
                           (cartItems (db w))) (db w))
                     (log w ++ [q; call]))
        end
    | None =>
        let call := DbE (CreateCartItem
                           (<["item" := VConnect i]> (<["user" := VConnect uid]> ∅))) in
        if user_exists uid (db w) && item_exists i (db w) then
          let c := CartItem.mk (gen_id (next_id (db w))) cartItem_default_quantity uid i in
          (inr c,
           mkWorld (set_cartItems (cartItems (db w) ++ [c]) (bump (db w)))
                   (log w ++ [q; call]))
        else (inl (Rejected "prisma" "no node to connect"), log_more [q; call] w)
    end.
Proof.
  intros Hid Hne. unfold Mutations.addToCart. rewrite Hid, (falsy_false _ Hne).
  unfold bind, db_query_cartItems, bind, emit, get_db, ret, log_more. simpl.
  destruct (head _) as [c|]; simpl.
  - unfold db_mutation_updateCartItem, bind, emit, get_db, put_db, ret, prisma_rejects, throw.
    simpl. destruct (find_cartItem (CartItem.id c) (cartItems (db w))) as [c0|]; simpl.
    + by rewrite <- app_assoc.
    + by rewrite <- app_assoc.
  - unfold db_mutation_createCartItem, bind, emit, get_db, put_db, ret, prisma_rejects, throw.
    simpl.
    change (cartItem_of_data _ _)
      with (Some (CartItem.mk (gen_id (next_id (db w))) cartItem_default_quantity uid i)).
    simpl. destruct (user_exists uid (db w) && item_exists i (db w)); simpl;
      by rewrite <- app_assoc.
Qed.

(** C9.  For an authenticated caller, with ids unique in the cart table:
    when the caller already has a cart row for the item, addToCart returns
    that row with its quantity plus 1 and the table is the old one with that
    row replaced in place (no row added); when the caller has none (and the
    caller and the item exist), it returns a new row that links the caller
    and the item and the table is the old one with that one row appended. *)
Theorem addToCart_increments_or_creates i ctx w uid :
  Request.userId ctx = Some uid → uid ≠ "" →
  NoDup (map CartItem.id (cartItems (db w))) →
  let run := Mutations.addToCart i ctx w in
  let mine := filter (λ c, CartItem.user c = uid ∧ CartItem.item c = i) (cartItems (db w)) in
  (∀ c, head mine = Some c →
     let c' := CartItem.mk (CartItem.id c) (CartItem.quantity c + 1)
                 (CartItem.user c) (CartItem.item c) in
     run.1 = inr c' ∧
     ∃ l1 l2, cartItems (db w) = l1 ++ c :: l2 ∧ cartItems (db run.2) = l1 ++ c' :: l2) ∧
  (mine = [] → user_exists uid (db w) = true → item_exists i (db w) = true →
     ∃ c, run.1 = inr c ∧ CartItem.user c = uid ∧ CartItem.item c = i ∧
          CartItem.quantity c = cartItem_default_quantity ∧
          cartItems (db run.2) = cartItems (db w) ++ [c]).
Proof.
  intros Hid Hne Hnd run mine.
  pose proof (addToCart_run i ctx w uid Hid Hne) as Hrun.
  cbv zeta in Hrun. fold mine run in Hrun. split.
  - intros c Hc. rewrite Hc in Hrun.
    apply head_filter_elem in Hc as [Hin _].
    unfold find_cartItem in Hrun.
    rewrite (find_unique CartItem.id _ c Hnd Hin) in Hrun.
    rewrite Hrun. simpl. split; [done|].
    apply replace_first_split. by apply (find_unique CartItem.id).
  - intros Hnone Hu Hi. rewrite Hnone, Hu, Hi in Hrun. simpl in Hrun.
    rewrite Hrun. simpl. eexists. split_and!; done.
Qed.

Lemma addToCart_increments_or_creates_witness :
  (Mutations.addToCart "i1" (Shop.as_user Shop.alice) Shop.w0).1
  = inr (CartItem.mk "c1" 3 "u1" "i1") ∧
  ∃ c, (Mutations.addToCart "i2" (Shop.as_user Shop.bob) Shop.w0).1 = inr c ∧
       cartItems (db (Mutations.addToCart "i2" (Shop.as_user Shop.bob) Shop.w0).2)
       = cartItems Shop.db0 ++ [c].
Proof.
  assert (Hnd : NoDup (map CartItem.id (cartItems (db Shop.w0)))).
  { apply (bool_decide_unpack _). by vm_compute. }
  assert (H1 : "u1" ≠ "") by done. assert (H2 : "u2" ≠ "") by done.
  split.
  - destruct (addToCart_increments_or_creates "i1" (Shop.as_user Shop.alice) Shop.w0 "u1"
                eq_refl H1 Hnd) as [H _].
    destruct (H (CartItem.mk "c1" 2 "u1" "i1") eq_refl) as [Hr _]. exact Hr.
  - destruct (addToCart_increments_or_creates "i2" (Shop.as_user Shop.bob) Shop.w0 "u2"
                eq_refl H2 Hnd) as [_ H].
    destruct (H eq_refl eq_refl eq_refl) as (c & Hr & _ & _ & _ & Hc). eauto.
Defined.

(** ** Resetting the password *)

Lemma token_filter_true tok limit u :
  token_filter tok limit u = true ↔
  User.resetToken u = Some tok ∧ ∃ e, User.resetTokenExpiry u = Some e ∧ limit ≤ e.
Proof.
  unfold token_filter. rewrite andb_true_iff, bool_decide_eq_true.
  destruct (User.resetTokenExpiry u) as [e|].
  - rewrite bool_decide_eq_true. naive_solver.
  - naive_solver.
Qed.

Lemma apply_reset_update env pw u :
  apply_user_update
    (<["resetTokenExpiry" := VNull]>
     (<["resetToken" := VNull]> (<["password" := VStr (bcrypt_hash env pw)]> ∅))) u
  = Some (reset_user env pw u).
Proof. reflexivity. Qed.

Lemma resetPassword_run info env pw pw' tok ctx w :
  let q := DbE (QueryUsersByToken tok (now env - 3600000)) in
  Mutations.resetPassword info env pw pw' tok ctx w =
    if bool_decide (pw ≠ pw') then (inl (Error "Your passwords do not match"), w)
    else
      match head (reset_candidates env tok (db w)) with
      | None => (inl (Error "This token is either invalid or expired!"), log_more [q] w)
      | Some user =>
          let call := DbE (UpdateUser (ByEmail (User.email user))
                             (<["resetTokenExpiry" := VNull]>
                              (<["resetToken" := VNull]>
                              (<["password" := VStr (bcrypt_hash env pw)]> ∅)))) in
          match find_user (ByEmail (User.email user)) (users (db w)) with
          | None => (inl (Rejected "prisma" "no User for this where"), log_more [q; call] w)
          | Some u0 =>
              let signed := if selects "id" info then Some (User.id u0) else None in
              (inr (reset_user env pw u0),
               mkWorld (set_users
                          (replace_first (matches_user (ByEmail (User.email user)))
                             (reset_user env pw u0) (users (db w))) (db w))
                       (log w ++ [q; call;
                                  CookieE "token" (jwt_sign env signed) cookie_maxAge]))
          end
      end.
Proof.
  unfold Mutations.resetPassword. destruct (bool_decide (pw ≠ pw')); [done|].
  unfold bind, db_query_users_by_token, bind, emit, get_db, ret, log_more. simpl.
  fold (reset_candidates env tok (db w)).
  destruct (head _) as [user|]; simpl; [|done].
  unfold db_mutation_updateUser, bind, emit, get_db, put_db, ret, prisma_rejects, throw.
  simpl. destruct (find _ (users (db w))) as [u0|]; simpl.
  - rewrite apply_reset_update. simpl. by rewrite <- !app_assoc.
  - by rewrite <- app_assoc.
Qed.

Lemma find_user_by_email_some us u :
  u ∈ us → is_Some (find_user (ByEmail (User.email u)) us).
Proof.
  intros Hu. simpl.
  destruct (find _ us) as [u0|] eqn:E; [eauto|].
  apply list_elem_of_In in Hu.
  pose proof (find_none _ _ E u Hu) as Hf. simpl in Hf.
  by rewrite bool_decide_eq_true_2 in Hf.
Qed.

(** C8.  A reset with matching passwords, at time [now env]:
    when every user that holds the token has an expiry before
    [now env - 3600000], it ends with the invalid-or-expired error and the
    database is unchanged; when some user holds the token with an expiry of
    [now env - 3600000] or later, it succeeds; and a user it returns has the
    hashed new password and no reset token and no expiry, and is stored in
    place of the user that held the token (emails being unique). *)
Theorem resetPassword_token_window info env pw tok ctx w :
  let run := Mutations.resetPassword info env pw pw tok ctx w in
  let limit := now env - 3600000 in
  ((∀ u e, u ∈ users (db w) → User.resetToken u = Some tok →
           User.resetTokenExpiry u = Some e → e < limit) →
   run.1 = inl (Error "This token is either invalid or expired!") ∧ db run.2 = db w) ∧
  (∀ u e, u ∈ users (db w) → User.resetToken u = Some tok →
          User.resetTokenExpiry u = Some e → limit ≤ e →
   ∃ u', run.1 = inr u') ∧
  (∀ u', run.1 = inr u' →
     User.password u' = bcrypt_hash env pw ∧
     User.resetToken u' = None ∧ User.resetTokenExpiry u' = None ∧
     u' ∈ users (db run.2) ∧
     (NoDup (map User.email (users (db w))) →
      ∃ l1 u l2, users (db w) = l1 ++ u :: l2 ∧ users (db run.2) = l1 ++ u' :: l2 ∧
                 u' = reset_user env pw u ∧
                 User.resetToken u = Some tok ∧
                 ∃ e, User.resetTokenExpiry u = Some e ∧ limit ≤ e)).
Proof.
  intros run limit.
  pose proof (resetPassword_run info env pw pw tok ctx w) as Hrun.
  cbv zeta in Hrun. fold run in Hrun.
  rewrite bool_decide_eq_false_2 in Hrun by (intros H; by apply H).
  split_and!.
  - intros Hold. unfold reset_candidates in Hrun.
    rewrite head_filter_none in Hrun; [by rewrite Hrun|].
    intros u Hu (Htok & e & He & Hle)%token_filter_true.
    pose proof (Hold u e Hu Htok He). fold limit in Hle. lia.
  - intros u e Hu Htok He Hle.
    destruct (head_filter_some (λ u, token_filter tok limit u = true) (users (db w)) u Hu)
      as [user Huser].
    { apply token_filter_true. eauto. }
    unfold reset_candidates in Hrun. fold limit in Hrun. rewrite Huser in Hrun.
    apply head_filter_elem in Huser as [Hin _].
    destruct (find_user_by_email_some _ _ Hin) as [u0 Hu0].
    rewrite Hu0 in Hrun. rewrite Hrun. eauto.
  - intros u'. rewrite Hrun. unfold reset_candidates. fold limit.
    destruct (head _) as [user|] eqn:Huser; [|done].
    apply head_filter_elem in Huser as [Hin Hf].
    destruct (find_user (ByEmail (User.email user)) (users (db w))) as [u0|] eqn:Hu0; [|done].
    simpl. intros [= <-]. split_and!; try done.
    + eapply replace_first_elem. exact Hu0.
    + intros Hnd.
      assert (u0 = user) as ->.
      { simpl in Hu0. rewrite (find_unique User.email _ user Hnd Hin) in Hu0. congruence. }
      destruct (replace_first_split _ (reset_user env pw user) _ _ Hu0) as (l1 & l2 & E1 & E2).
      exists l1, user, l2. apply token_filter_true in Hf as [Htok He].
      split_and!; done.
Qed.

Lemma resetPassword_token_window_witness :
  now Shop.accepting - 3600000 = 1000 ∧
  User.resetTokenExpiry Shop.carol = Some 1000 ∧
  ∃ u', (Mutations.resetPassword (select ["id"]) Shop.accepting "pw" "pw" "tok"
           Shop.anonymous Shop.w0).1
        = inr u' ∧ User.resetToken u' = None.
Proof.
  split; [reflexivity|]. split; [reflexivity|].
  destruct (resetPassword_token_window (select ["id"]) Shop.accepting "pw" "tok"
              Shop.anonymous Shop.w0)
    as (_ & Hacc & Hok).
  destruct (Hacc Shop.carol 1000) as [u' Hu']; [| reflexivity | reflexivity | by vm_compute |].
  - apply list_elem_of_In. vm_compute. auto.
  - exists u'. split; [done|]. by destruct (Hok u' Hu') as (_ & ? & _).
Defined.

(** ** Frames of a resolver *)

Lemma read_only_ret {A} (a : A) : read_only (ret a).
Proof. by intros w. Qed.

Lemma read_only_throw {A} (e : exn) : read_only (@throw A e).
Proof. by intros w. Qed.

Lemma read_only_emit (e : Effect) : read_only (emit e).
Proof. by intros w. Qed.

Lemma read_only_get_db : read_only get_db.
Proof. by intros w. Qed.

Lemma read_only_bind {A B} (m : M A) (k : A → M B) :
  read_only m → (∀ a, read_only (k a)) → read_only (bind m k).
Proof.
  intros Hm Hk w. unfold bind. specialize (Hm w).
  destruct (m w) as [[e|a] w']; simpl in *; [done|].
  by rewrite Hk.
Qed.

Lemma read_only_fails_clean {A} (m : M A) : read_only m → fails_clean m.
Proof. intros H w e _. apply H. Qed.

Lemma fails_clean_bind {A B} (m : M A) (k : A → M B) :
  read_only m → (∀ a, fails_clean (k a)) → fails_clean (bind m k).
Proof.
  intros Hm Hk w e. unfold bind. specialize (Hm w).
  destruct (m w) as [[e'|a] w'] eqn:E; simpl in *; [done|].
  intros He. rewrite (Hk a w' e He). done.
Qed.

Lemma fails_clean_bind_ret {A} (m : M A) : fails_clean m → fails_clean (bind m (λ a, ret a)).
Proof.
  intros H w e. specialize (H w e). unfold bind, ret.
  by destruct (m w) as [[e'|a] w'].
Qed.

Create HintDb frames.

#[export] Hint Resolve read_only_ret read_only_throw read_only_emit read_only_get_db : frames.

Ltac frame_step :=
  match goal with
  | |- fails_clean (bind _ (λ a, ret a)) => apply fails_clean_bind_ret
  | |- read_only (bind _ _) => apply read_only_bind; [|intros ?]
  | |- fails_clean (bind _ _) => apply fails_clean_bind; [|intros ?]
  | |- read_only (if ?b then _ else _) => destruct b
  | |- fails_clean (if ?b then _ else _) => destruct b
  | |- read_only (match ?x with _ => _ end) => destruct x
  | |- fails_clean (match ?x with _ => _ end) => destruct x
  | |- fails_clean _ => apply read_only_fails_clean
  end.

Ltac frames := repeat first [ solve [eauto with frames] | frame_step ].

Lemma read_only_db_query_user w : read_only (db_query_user w).
Proof. unfold db_query_user. frames. Qed.

Lemma read_only_db_query_user_cart i : read_only (db_query_user_cart i).
Proof. unfold db_query_user_cart. frames. Qed.

Lemma read_only_db_query_users : read_only db_query_users.
Proof. unfold db_query_users. frames. Qed.

Lemma read_only_db_query_users_by_token t e : read_only (db_query_users_by_token t e).
Proof. unfold db_query_users_by_token. frames. Qed.

Lemma read_only_db_query_item i : read_only (db_query_item i).
Proof. unfold db_query_item. frames. Qed.

Lemma read_only_db_query_cartItems u i : read_only (db_query_cartItems u i).
Proof. unfold db_query_cartItems. frames. Qed.

Lemma read_only_db_query_cartItem i : read_only (db_query_cartItem i).
Proof. unfold db_query_cartItem. frames. Qed.

Lemma read_only_db_query_order i : read_only (db_query_order i).
Proof. unfold db_query_order. frames. Qed.

Lemma read_only_db_query_orders u : read_only (db_query_orders u).
Proof. unfold db_query_orders. frames. Qed.

#[export] Hint Resolve read_only_db_query_user read_only_db_query_user_cart
  read_only_db_query_users read_only_db_query_users_by_token read_only_db_query_item
  read_only_db_query_cartItems read_only_db_query_cartItem read_only_db_query_order
  read_only_db_query_orders : frames.

(** The mutations of the collaborator change the tables only when they
    succeed. *)
Lemma fails_clean_createItem data : fails_clean (db_mutation_createItem data).
Proof.
  intros w e. unfold db_mutation_createItem, bind, emit, get_db, put_db, ret, prisma_rejects,
    throw. simpl.
  destruct (item_of_data _ data) as [it|]; [|done].
  by destruct (user_exists (Item.user it) (db w)).
Qed.

Lemma fails_clean_updateItem data i : fails_clean (db_mutation_updateItem data i).
Proof.
  intros w e. unfold db_mutation_updateItem, bind, emit, get_db, put_db, ret, prisma_rejects,
    throw. simpl.
  destruct i as [[| |i| |]|]; try done.
  destruct (find_item i (items (db w))) as [it|]; [|done].
  by destruct (apply_item_update data it).
Qed.

Lemma fails_clean_deleteItem i : fails_clean (db_mutation_deleteItem i).
Proof.
  intros w e. unfold db_mutation_deleteItem, bind, emit, get_db, put_db, ret, prisma_rejects,
    throw. simpl.
  by destruct (find_item i (items (db w))).
Qed.

Lemma fails_clean_updateUser wh data : fails_clean (db_mutation_updateUser wh data).
Proof.
  intros w e. unfold db_mutation_updateUser, bind, emit, get_db, put_db, ret, prisma_rejects,
    throw. simpl.
  destruct (find_user wh (users (db w))) as [u|]; [|done].
  by destruct (apply_user_update data u).
Qed.

Lemma fails_clean_updateCartItem i data : fails_clean (db_mutation_updateCartItem i data).
Proof.
  intros w e. unfold db_mutation_updateCartItem, bind, emit, get_db, put_db, ret,
    prisma_rejects, throw. simpl.
  destruct (find_cartItem i (cartItems (db w))) as [c|]; [|done].
  by destruct (apply_cartItem_update data c).
Qed.

Lemma fails_clean_createCartItem data : fails_clean (db_mutation_createCartItem data).
Proof.
  intros w e. unfold db_mutation_createCartItem, bind, emit, get_db, put_db, ret,
    prisma_rejects, throw. simpl.
  destruct (cartItem_of_data _ data) as [c|]; [|done].
  by destruct (user_exists _ _ && item_exists _ _).
Qed.

Lemma fails_clean_deleteCartItem i : fails_clean (db_mutation_deleteCartItem i).
Proof.
  intros w e. unfold db_mutation_deleteCartItem, bind, emit, get_db, put_db, ret,
    prisma_rejects, throw. simpl.
  by destruct (find_cartItem i (cartItems (db w))).
Qed.

#[export] Hint Resolve fails_clean_createItem fails_clean_updateItem fails_clean_deleteItem
  fails_clean_updateUser fails_clean_updateCartItem fails_clean_createCartItem
  fails_clean_deleteCartItem : frames.

(** ** Query.js *)

(** X1.  No query resolver writes: after me, order and orders the tables
    are what they were, whoever calls and whatever the outcome. *)
Theorem queries_read_only ctx info i w :
  db (Query.me ctx w).2 = db w ∧
  db (Query.order info i ctx w).2 = db w ∧
  db (Query.orders ctx w).2 = db w.
Proof.
  split_and!.
  - revert w. change (read_only (Query.me ctx)). unfold Query.me. frames.
  - revert w. change (read_only (Query.order info i ctx)). unfold Query.order, lift. frames.
  - revert w. change (read_only (Query.orders ctx)). unfold Query.orders. frames.
Qed.

(** X2.  With no identity on the request, me answers null and users, order
    and orders end with 'You must be logged in'; none of them calls a
    collaborator (the world, log included, is unchanged). *)
Theorem query_session_guard ctx info i w :
  falsy (Request.userId ctx) = true →
  Query.me ctx w = (inr None, w) ∧
  Query.users ctx w = (inl (Error "You must be logged in"), w) ∧
  Query.order info i ctx w = (inl (Error "You must be logged in"), w) ∧
  Query.orders ctx w = (inl (Error "You must be logged in"), w).
Proof.
  intros Hf. unfold Query.me, Query.users, Query.order, Query.orders. by rewrite Hf.
Qed.

Lemma query_session_guard_witness :
  falsy (Request.userId Shop.anonymous) = true ∧
  Query.orders Shop.anonymous Shop.w0 = (inl (Error "You must be logged in"), Shop.w0).
Proof.
  split; [reflexivity|].
  by destruct (query_session_guard Shop.anonymous (select ["id"]) "o1" Shop.w0 eq_refl)
    as (_ & _ & _ & H).
Defined.

Lemma find_order_id i l o : find_order i l = Some o → Order.id o = i ∧ o ∈ l.
Proof.
  intros H. apply find_some in H as [Hin H]. apply bool_decide_eq_true in H.
  split; [done | by apply list_elem_of_In].
Qed.

(** X3.  For a logged-in caller whose identity is attached to the request,
    what the single-order query answers depends on the selection of the
    client.  When the selection asks for the id of the user of the order,
    the query returns an order exactly when the order with that id exists,
    belongs to the caller and the caller holds ADMIN, and what it returns is
    that order.  When it asks for the user but not for its id, an order
    that exists is refused to everybody with the permission error.  When
    it does not ask for the user at all, an order that exists makes the
    query end in a TypeError, for its owner with ADMIN as for anybody. *)
Theorem order_view_decision info i ctx w uid u :
  Request.userId ctx = Some uid → uid ≠ "" →
  Request.user ctx = Some u →
  let run := Query.order info i ctx w in
  (∀ user_info, subselection "user" info = Some user_info → selects "id" user_info = true →
     ∀ o, run.1 = inr o ↔
          find_order i (orders (db w)) = Some o ∧
          Order.user o = uid ∧ "ADMIN" ∈ User.permissions u) ∧
  (∀ user_info, subselection "user" info = Some user_info → selects "id" user_info = false →
     is_Some (find_order i (orders (db w))) →
     run.1 = inl (Error "You do not have permissions to see this order")) ∧
  (subselection "user" info = None →
     is_Some (find_order i (orders (db w))) →
     run.1 = inl (TypeError "Cannot read property 'id' of undefined")).
Proof.
  intros Hid Hne Hu run.
  pose proof (falsy_false _ Hne) as Hf. rewrite <- Hid in Hf.
  split_and!.
  - intros ui Hs Hi o. unfold run.
    destruct (find_order i (orders (db w))) as [o'|] eqn:Ho.
    + rewrite (order_gate info i ctx w o' u Hf Ho Hu).
      rewrite (selected_user_id_full _ _ _ Hs Hi). simpl. rewrite Hid.
      destruct (bool_decide (Some (Order.user o') = Some uid)) eqn:E1;
        destruct (bool_decide ("ADMIN" ∈ User.permissions u)) eqn:E2; simpl;
        try apply bool_decide_eq_true in E1; try apply bool_decide_eq_true in E2;
        try apply bool_decide_eq_false in E1; try apply bool_decide_eq_false in E2;
        split; try done; try naive_solver.
    + unfold Query.order, bind, db_query_order, bind, emit, get_db, ret, throw.
      rewrite Hf. simpl. rewrite Ho. simpl. naive_solver.
  - intros ui Hs Hi [o Ho]. unfold run.
    rewrite (order_gate info i ctx w o u Hf Ho Hu).
    unfold selected_user_id. rewrite Hs, Hi. simpl. rewrite Hid.
    by rewrite bool_decide_eq_false_2.
  - intros Hs [o Ho]. unfold run.
    rewrite (order_gate info i ctx w o u Hf Ho Hu).
    unfold selected_user_id. by rewrite Hs.
Qed.

Lemma order_view_decision_witness :
  (Query.order [Field "id" []; Field "user" [Field "id" []]] "o2"
     (Shop.as_user Shop.bob) Backoffice.w1).1
  = inr (Order.mk "o2" 1200 "ch_2" [] "u2") ∧
  (Query.order (select ["id"; "total"]) "o2" (Shop.as_user Shop.bob) Backoffice.w1).1
  = inl (TypeError "Cannot read property 'id' of undefined").
Proof.
  assert (Hne : "u2" ≠ "") by done.
  split.
  - destruct (order_view_decision [Field "id" []; Field "user" [Field "id" []]] "o2"
                (Shop.as_user Shop.bob) Backoffice.w1 "u2" Shop.bob eq_refl Hne eq_refl)
      as (H & _ & _).
    apply (H [Field "id" []] eq_refl eq_refl).
    split; [reflexivity|]. split; [reflexivity|].
    apply list_elem_of_In. vm_compute. auto.
  - destruct (order_view_decision (select ["id"; "total"]) "o2"
                (Shop.as_user Shop.bob) Backoffice.w1 "u2" Shop.bob eq_refl Hne eq_refl)
      as (_ & _ & H).
    apply H; [reflexivity|]. by eexists.
Defined.

(** X4.  For a logged-in caller, orders returns exactly the orders of the
    table that belong to the caller: none of another identity, none left
    out. *)
Theorem orders_lists_own_orders ctx w uid :
  Request.userId ctx = Some uid → uid ≠ "" →
  ∃ l, (Query.orders ctx w).1 = inr l ∧
       ∀ o, o ∈ l ↔ o ∈ orders (db w) ∧ Order.user o = uid.
Proof.
  intros Hid Hne. unfold Query.orders. rewrite Hid, (falsy_false _ Hne).
  unfold db_query_orders, bind, emit, get_db, ret. simpl.
  eexists. split; [done|]. intros o. rewrite list_elem_of_filter. tauto.
Qed.

Lemma orders_lists_own_orders_witness :
  ∃ l, (Query.orders (Shop.as_user Shop.alice) Shop.w0).1 = inr l ∧
       Order.mk "o1" 500 "ch_0" [] "u1" ∈ l.
Proof.
  assert (Hne : "u1" ≠ "") by done.
  destruct (orders_lists_own_orders (Shop.as_user Shop.alice) Shop.w0 "u1" eq_refl Hne)
    as (l & Hl & H).
  exists l. split; [done|]. apply H. split; [|reflexivity].
  apply list_elem_of_In. vm_compute. auto.
Defined.

(** ** Mutation.js: what a failure leaves behind *)

(** X5.  createItem, updateItem, deleteItem, addToCart, removeFromCart and
    resetPassword change nothing when they fail: whenever one of them ends
    in an exception, whatever it is, the tables are what they were before
    the call. *)
Theorem failed_mutation_changes_nothing env ctx w e :
  (∀ args, (Mutations.createItem args ctx w).1 = inl e →
           db (Mutations.createItem args ctx w).2 = db w) ∧
  (∀ args, (Mutations.updateItem args ctx w).1 = inl e →
           db (Mutations.updateItem args ctx w).2 = db w) ∧
  (∀ i, (Mutations.deleteItem i ctx w).1 = inl e →
        db (Mutations.deleteItem i ctx w).2 = db w) ∧
  (∀ i, (Mutations.addToCart i ctx w).1 = inl e →
        db (Mutations.addToCart i ctx w).2 = db w) ∧
  (∀ i, (Mutations.removeFromCart i ctx w).1 = inl e →
        db (Mutations.removeFromCart i ctx w).2 = db w) ∧
  (∀ info pw pw' tok, (Mutations.resetPassword info env pw pw' tok ctx w).1 = inl e →
                      db (Mutations.resetPassword info env pw pw' tok ctx w).2 = db w).
Proof.
  split_and!.
  - intros args. revert w e. change (fails_clean (Mutations.createItem args ctx)).
    unfold Mutations.createItem. frames.
  - intros args. revert w e. change (fails_clean (Mutations.updateItem args ctx)).
    unfold Mutations.updateItem. frames.
  - intros i. revert w e. change (fails_clean (Mutations.deleteItem i ctx)).
    unfold Mutations.deleteItem. frames.
  - intros i. revert w e. change (fails_clean (Mutations.addToCart i ctx)).
    unfold Mutations.addToCart. frames.
  - intros i. revert w e. change (fails_clean (Mutations.removeFromCart i ctx)).
    unfold Mutations.removeFromCart. frames.
  - intros info pw pw' tok. rewrite resetPassword_run.
    destruct (bool_decide (pw ≠ pw')); [done|].
    destruct (head _) as [user|]; [|done].
    by destruct (find_user _ _).
Qed.

Lemma failed_mutation_changes_nothing_witness :
  (Mutations.removeFromCart "c1" (Shop.as_user Shop.bob) Shop.w0).1
  = inl (Error "Cheating??? :O") ∧
  db (Mutations.removeFromCart "c1" (Shop.as_user Shop.bob) Shop.w0).2 = Shop.db0.
Proof.
  split; [reflexivity|].
  destruct (failed_mutation_changes_nothing Shop.accepting (Shop.as_user Shop.bob) Shop.w0
              (Error "Cheating??? :O")) as (_ & _ & _ & _ & H & _).
  by apply H.
Defined.

(** ** deleteItem *)

Lemma find_filtered_out {A} `{EqDecision B} (f : A → B) (i : B) (l : list A) :
  find (λ x, bool_decide (f x = i)) (filter (λ x, f x ≠ i) l) = None.
Proof.
  induction l as [|x l IH]; [done|].
  rewrite filter_cons. destruct (decide (f x ≠ i)) as [Hne|_]; [|done].
  simpl. by rewrite bool_decide_eq_false_2.
Qed.

(** X6.  For an item that exists and a caller whose identity is attached:
    deleteItem deletes when the caller owns the item or holds neither ADMIN
    nor ITEMDELETE.  It then returns the item, the items left are the old
    ones without the rows of that id, in order, and users, cart items and
    orders are untouched.  A caller that does not own the item and does
    hold ADMIN or ITEMDELETE is refused and nothing changes. *)
Theorem deleteItem_decision i ctx w it u :
  find_item i (items (db w)) = Some it →
  Request.user ctx = Some u →
  let run := Mutations.deleteItem i ctx w in
  let owns := Request.userId ctx = Some (Item.user it) in
  (owns ∨ has_role ["ADMIN"; "ITEMDELETE"] u = false →
   run.1 = inr it ∧
   items (db run.2) = filter (λ x, Item.id x ≠ i) (items (db w)) ∧
   find_item i (items (db run.2)) = None ∧
   users (db run.2) = users (db w) ∧ cartItems (db run.2) = cartItems (db w) ∧
   orders (db run.2) = orders (db w)) ∧
  (¬ owns ∧ has_role ["ADMIN"; "ITEMDELETE"] u = true →
   run.1 = inl (Error "You don't have permission to do that!") ∧ db run.2 = db w).
Proof.
  intros Hit Hu run owns. unfold run. rewrite (deleteItem_gate i ctx w it u Hit Hu).
  unfold strict_eq.
  destruct (bool_decide (Some (Item.user it) = Request.userId ctx)) eqn:E.
  - apply bool_decide_eq_true in E. simpl. split.
    + intros _. split_and!; try done.
      apply (find_filtered_out Item.id).
    + intros [Hn _]. by destruct Hn.
  - apply bool_decide_eq_false in E. simpl.
    destruct (has_role _ u) eqn:Hr; simpl; split.
    + intros [Ho|?]; [|done]. by destruct E.
    + done.
    + intros _. split_and!; try done.
      apply (find_filtered_out Item.id).
    + by intros [_ ?].
Qed.

Lemma deleteItem_decision_witness :
  (Mutations.deleteItem "i1" (Shop.as_user Shop.bob) Shop.w0).1 = inr Shop.shoes ∧
  items (db (Mutations.deleteItem "i1" (Shop.as_user Shop.bob) Shop.w0).2) = [Shop.coat].
Proof.
  destruct (deleteItem_decision "i1" (Shop.as_user Shop.bob) Shop.w0 Shop.shoes Shop.bob
              eq_refl eq_refl) as [H _].
  destruct H as (Hr & Hi & _); [by left|].
  split; [done|]. rewrite Hi. by vm_compute.
Defined.

(** ** removeFromCart *)

Lemma find_cartItem_id i l c : find_cartItem i l = Some c → CartItem.id c = i ∧ c ∈ l.
Proof.
  intros H. apply find_some in H as [Hin H]. apply bool_decide_eq_true in H.
  split; [done | by apply list_elem_of_In].
Qed.

Lemma removeFromCart_run i ctx w :
  Mutations.removeFromCart i ctx w =
    match find_cartItem i (cartItems (db w)) with
    | None => (inl (Error "No CartItem Found!"), log_more [DbE (QueryCartItem i)] w)
    | Some c =>
        if strict_eq (CartItem.user c) (Request.userId ctx)
        then (inr c,
              mkWorld (set_cartItems (filter (λ x, CartItem.id x ≠ i) (cartItems (db w))) (db w))
                      (log w ++ [DbE (QueryCartItem i); DbE (DeleteCartItem i)]))
        else (inl (Error "Cheating??? :O"), log_more [DbE (QueryCartItem i)] w)
    end.
Proof.
  unfold Mutations.removeFromCart, bind, db_query_cartItem, bind, emit, get_db, ret, throw,
    log_more. simpl.
  destruct (find_cartItem i (cartItems (db w))) as [c|] eqn:Hc; simpl; [|done].
  destruct (strict_eq _ _); simpl; [|done].
  unfold db_mutation_deleteCartItem, bind, emit, get_db, put_db, ret. simpl. rewrite Hc. simpl.
  by rewrite <- app_assoc.
Qed.

(** X7.  removeFromCart removes a cart item for its owner only.  When it
    returns a row, that row is the one with the given id, it belongs to the
    caller, no row of that id is left and the other rows, and all other
    tables, are as before.  The owner always succeeds; an id that is not in
    the table gives 'No CartItem Found!'; any other caller, an anonymous one
    included, gets 'Cheating??? :O'. *)
Theorem removeFromCart_owner_only i ctx w :
  let run := Mutations.removeFromCart i ctx w in
  (∀ c, run.1 = inr c →
     find_cartItem i (cartItems (db w)) = Some c ∧
     Request.userId ctx = Some (CartItem.user c) ∧
     cartItems (db run.2) = filter (λ x, CartItem.id x ≠ i) (cartItems (db w)) ∧
     find_cartItem i (cartItems (db run.2)) = None ∧
     users (db run.2) = users (db w) ∧ items (db run.2) = items (db w) ∧
     orders (db run.2) = orders (db w)) ∧
  (∀ c, find_cartItem i (cartItems (db w)) = Some c →
        Request.userId ctx = Some (CartItem.user c) → run.1 = inr c) ∧
  (find_cartItem i (cartItems (db w)) = None → run.1 = inl (Error "No CartItem Found!")) ∧
  (∀ c, find_cartItem i (cartItems (db w)) = Some c →
        Request.userId ctx ≠ Some (CartItem.user c) → run.1 = inl (Error "Cheating??? :O")).
Proof.
  intros run. unfold run. rewrite removeFromCart_run. unfold strict_eq.
  destruct (find_cartItem i (cartItems (db w))) as [c|] eqn:Hc.
  - destruct (bool_decide (Some (CartItem.user c) = Request.userId ctx)) eqn:E;
      [apply bool_decide_eq_true in E | apply bool_decide_eq_false in E]; simpl.
    + split_and!; try done.
      * intros c' [= <-]. split_and!; try done. apply (find_filtered_out CartItem.id).
      * by intros c' [= <-] _.
      * intros c' [= <-] Hn. by destruct Hn.
    + split_and!; try done.
      intros c' [= <-] Ho. by destruct E.
  - simpl. split_and!; done.
Qed.

Lemma removeFromCart_owner_only_witness :
  (Mutations.removeFromCart "c1" (Shop.as_user Shop.alice) Shop.w0).1
  = inr (CartItem.mk "c1" 2 "u1" "i1") ∧
  (Mutations.removeFromCart "c1" Shop.anonymous Shop.w0).1 = inl (Error "Cheating??? :O").
Proof.
  split.
  - destruct (removeFromCart_owner_only "c1" (Shop.as_user Shop.alice) Shop.w0)
      as (_ & H & _). by apply H.
  - destruct (removeFromCart_owner_only "c1" Shop.anonymous Shop.w0) as (_ & _ & _ & H).
    by apply (H (CartItem.mk "c1" 2 "u1" "i1")).
Defined.

(** ** requestReset *)

Lemma apply_token_update env u :
  apply_user_update
    (<["resetTokenExpiry" := VNum (now env + 3600000)]>
     (<["resetToken" := VStr (randomBytes_hex env)]> ∅)) u
  = Some (with_reset_token env u).
Proof. reflexivity. Qed.

Lemma requestReset_run env email ctx w :
  let q := DbE (QueryUser (ByEmail email)) in
  Mutations.requestReset env email ctx w =
    match find_user (ByEmail email) (users (db w)) with
    | None => (inl (Error ("No such user found for email " +:+ email)), log_more [q] w)
    | Some u =>
        let call := DbE (UpdateUser (ByEmail email)
                           (<["resetTokenExpiry" := VNum (now env + 3600000)]>
                            (<["resetToken" := VStr (randomBytes_hex env)]> ∅))) in
        let w' := mkWorld (set_users (replace_first (matches_user (ByEmail email))
                                        (with_reset_token env u) (users (db w))) (db w))
                          (log w ++ [q; call; MailE (reset_mail env u)]) in
        match transport_sendMail env (reset_mail env u) with
        | inl e => (inl e, w')
        | inr _ => (inr "Thanks!", w')
        end
    end.
Proof.
  unfold Mutations.requestReset, bind, db_query_user, bind, emit, get_db, ret, throw,
    log_more.
  simpl. destruct (find _ (users (db w))) as [u|] eqn:Hu; simpl; [|done].
  unfold db_mutation_updateUser, bind, emit, get_db, put_db, ret. simpl. rewrite Hu. simpl.
  unfold sendMail, bind, emit, ret, throw. simpl. fold (reset_mail env u).
  rewrite apply_token_update. simpl.
  destruct (transport_sendMail env (reset_mail env u)); simpl; by rewrite <- !app_assoc.
Qed.

(** X8.  requestReset for an email no user has ends with 'No such user
    found for email ...', writes nothing and sends no mail.  For the email
    of a user it stores the random token and the expiry [now + 3600000] on
    that user and on no other row or table, and makes exactly three calls:
    the query, the update, and one mail to the address of that user; it
    answers 'Thanks!' when the transport accepted the mail. *)
Theorem requestReset_outcome env email ctx w :
  let run := Mutations.requestReset env email ctx w in
  (find_user (ByEmail email) (users (db w)) = None →
   run.1 = inl (Error ("No such user found for email " +:+ email)) ∧
   db run.2 = db w ∧
   effects_of (Mutations.requestReset env email ctx) w = [DbE (QueryUser (ByEmail email))]) ∧
  (∀ u, find_user (ByEmail email) (users (db w)) = Some u →
     (∃ l1 l2, users (db w) = l1 ++ u :: l2 ∧
               users (db run.2) = l1 ++ with_reset_token env u :: l2) ∧
     items (db run.2) = items (db w) ∧ cartItems (db run.2) = cartItems (db w) ∧
     orders (db run.2) = orders (db w) ∧
     effects_of (Mutations.requestReset env email ctx) w
     = [DbE (QueryUser (ByEmail email));
        DbE (UpdateUser (ByEmail email)
               (<["resetTokenExpiry" := VNum (now env + 3600000)]>
                (<["resetToken" := VStr (randomBytes_hex env)]> ∅)));
        MailE (reset_mail env u)] ∧
     Mail.to (reset_mail env u) = email ∧
     (transport_sendMail env (reset_mail env u) = inr tt → run.1 = inr "Thanks!")).
Proof.
  intros run. pose proof (requestReset_run env email ctx w) as Hrun.
  cbv zeta in Hrun. fold run in Hrun. split.
  - intros Hn. rewrite Hn in Hrun.
    rewrite (effects_of_more _ _ _ _ Hrun). by rewrite Hrun.
  - intros u Hu. rewrite Hu in Hrun.
    assert (User.email u = email) as Hmail.
    { simpl in Hu. apply find_some in Hu as [_ Hu]. by apply bool_decide_eq_true in Hu. }
    destruct (transport_sendMail env (reset_mail env u)) as [e|[]] eqn:Hm;
      rewrite (effects_of_log_more _ _ _ _ _ Hrun); rewrite Hrun; simpl;
      (split_and!; try done; by apply replace_first_split).
Qed.

Lemma requestReset_outcome_witness :
  (Mutations.requestReset Shop.accepting "alice@shop.test" Shop.anonymous Shop.w0).1
  = inr "Thanks!" ∧
  (Mutations.requestReset Shop.accepting "nobody@shop.test" Shop.anonymous Shop.w0).1
  = inl (Error "No such user found for email nobody@shop.test").
Proof.
  split.
  - destruct (requestReset_outcome Shop.accepting "alice@shop.test" Shop.anonymous Shop.w0)
      as [_ H].
    destruct (H Shop.alice eq_refl) as (_ & _ & _ & _ & _ & _ & Hr). by apply Hr.
  - destruct (requestReset_outcome Shop.accepting "nobody@shop.test" Shop.anonymous Shop.w0)
      as [H _].
    destruct (H eq_refl) as [Hr _]. exact Hr.
Defined.

(** X9.  requestReset does not undo the update when the mail cannot be
    sent: it ends with the error of the transport, and the token and its
    expiry are stored on the user all the same. *)
Theorem requestReset_mail_failure_keeps_token env email ctx w u e :
  find_user (ByEmail email) (users (db w)) = Some u →
  transport_sendMail env (reset_mail env u) = inl e →
  let run := Mutations.requestReset env email ctx w in
  run.1 = inl e ∧
  find_user (ByEmail email) (users (db run.2)) = Some (with_reset_token env u) ∧
  User.resetToken (with_reset_token env u) = Some (randomBytes_hex env) ∧
  User.resetTokenExpiry (with_reset_token env u) = Some (now env + 3600000).
Proof.
  intros Hu Hm run. unfold run. rewrite requestReset_run, Hu. cbv zeta. rewrite Hm. simpl.
  split_and!; try done.
  assert (User.email u = email) as Hmail.
  { simpl in Hu. apply find_some in Hu as [_ Hu]. by apply bool_decide_eq_true in Hu. }
  revert Hu. generalize (users (db w)). intros l. induction l as [|x l IH]; [done|].
  simpl. destruct (bool_decide (User.email x = email)) eqn:E; simpl.
  - intros _. by rewrite bool_decide_eq_true_2.
  - rewrite E. apply IH.
Qed.

Lemma requestReset_mail_failure_keeps_token_witness :
  let env := mkEnv 5000 (λ p, p) (λ i, default "" i) "cafe" "http://shop.test" (λ s, s)
               (λ _, inl (Rejected "smtp" "connection refused")) (λ _, inl (Error "unused")) in
  (Mutations.requestReset env "alice@shop.test" Shop.anonymous Shop.w0).1
  = inl (Rejected "smtp" "connection refused") ∧
  User.resetToken
    <$> find_user (ById "u1")
          (users (db (Mutations.requestReset env "alice@shop.test" Shop.anonymous Shop.w0).2))
  = Some (Some "cafe").
Proof.
  simpl. split.
  - by destruct (requestReset_mail_failure_keeps_token
                   (mkEnv 5000 (λ p, p) (λ i, default "" i) "cafe" "http://shop.test" (λ s, s)
                      (λ _, inl (Rejected "smtp" "connection refused"))
                      (λ _, inl (Error "unused")))
                   "alice@shop.test" Shop.anonymous Shop.w0 Shop.alice
                   (Rejected "smtp" "connection refused") eq_refl eq_refl) as [H _].
  - by vm_compute.
Defined.

(** ** resetPassword *)

Lemma find_replace_first {A} (p : A → bool) (new : A) (l : list A) x :
  find p l = Some x → p new = true → find p (replace_first p new l) = Some new.
Proof.
  intros Hf Hp. induction l as [|y l IH]; simpl in *; [done|].
  destruct (p y) eqn:E; simpl.
  - by rewrite Hp.
  - rewrite E. by apply IH.
Qed.

Lemma filter_none {A} (P : A → Prop) `{∀ x, Decision (P x)} (l : list A) :
  (∀ x, x ∈ l → ¬ P x) → filter P l = [].
Proof.
  induction l as [|x l IH]; intros Hn; [done|].
  rewrite filter_cons. destruct (decide (P x)) as [HP|_].
  - destruct (Hn x); [left | done].
  - apply IH. intros y Hy. apply Hn. by right.
Qed.

Lemma filter_replace_first_only {A} (P : A → Prop) `{∀ x, Decision (P x)}
    (p : A → bool) (new : A) (l : list A) x :
  (∀ y, y ∈ l → ¬ P y) → find p l = Some x →
  filter P (replace_first p new l) = if decide (P new) then [new] else [].
Proof.
  intros Hn Hf. induction l as [|y l IH]; simpl in *; [done|].
  assert (filter P l = []) as Hl.
  { apply filter_none. intros z Hz. apply Hn. by right. }
  destruct (p y) eqn:E.
  - rewrite filter_cons, Hl. by destruct (decide (P new)).
  - rewrite filter_cons. destruct (decide (P y)) as [HP|_].
    + destruct (Hn y); [left | done].
    + apply IH; [|done]. intros z Hz. apply Hn. by right.
Qed.

Lemma find_user_by_email_email e us u : find_user (ByEmail e) us = Some u → User.email u = e.
Proof.
  simpl. intros H. apply find_some in H as [_ H]. by apply bool_decide_eq_true in H.
Qed.

(** X10.  resetPassword with two different passwords ends with 'Your
    passwords do not match' before it calls anything.  When it returns a
    user it has made exactly three calls: the query by token, the update
    addressed by the email of that user, and one cookie named token that
    lasts 31536000000 ms (365 days).  The cookie holds the signed id of
    that user when the selection of the client asks for the id; when it
    does not, the updated user comes back without an id and the token is
    signed over an undefined userId: the cookie identifies nobody. *)
Theorem resetPassword_logs_in info env pw pw' tok ctx w :
  let run := Mutations.resetPassword info env pw pw' tok ctx w in
  (pw ≠ pw' → run = (inl (Error "Your passwords do not match"), w)) ∧
  (∀ u', run.1 = inr u' →
     pw = pw' ∧
     ∃ signed,
       effects_of (Mutations.resetPassword info env pw pw' tok ctx) w
       = [DbE (QueryUsersByToken tok (now env - 3600000));
          DbE (UpdateUser (ByEmail (User.email u'))
                 (<["resetTokenExpiry" := VNull]>
                  (<["resetToken" := VNull]>
                  (<["password" := VStr (bcrypt_hash env pw)]> ∅))));
          CookieE "token" (jwt_sign env signed) 31536000000] ∧
       (selects "id" info = true → signed = Some (User.id u')) ∧
       (selects "id" info = false → signed = None)).
Proof.
  intros run. pose proof (resetPassword_run info env pw pw' tok ctx w) as Hrun.
  cbv zeta in Hrun. fold run in Hrun. split.
  - intros Hne. by rewrite bool_decide_eq_true_2 in Hrun.
  - intros u'. destruct (decide (pw = pw')) as [->|Hne].
    2:{ rewrite bool_decide_eq_true_2 in Hrun by done. by rewrite Hrun. }
    rewrite bool_decide_eq_false_2 in Hrun by (intros H; by apply H).
    destruct (head _) as [user|]; [|by rewrite Hrun].
    destruct (find_user _ _) as [u0|] eqn:Hu0; [|by rewrite Hrun].
    rewrite (effects_of_log_more _ _ _ _ _ Hrun). rewrite Hrun. simpl.
    intros [= <-]. split; [done|].
    exists (if selects "id" info then Some (User.id u0) else None). simpl.
    rewrite (find_user_by_email_email _ _ _ Hu0).
    split_and!; [done | by intros -> | by intros ->].
Qed.

Lemma resetPassword_logs_in_witness :
  CookieE "token" "jwt:u3" 31536000000
  ∈ effects_of (Mutations.resetPassword (select ["id"; "email"]) Shop.accepting "pw" "pw" "tok"
                  Shop.anonymous) Shop.w0 ∧
  CookieE "token" "jwt:" 31536000000
  ∈ effects_of (Mutations.resetPassword (select ["email"]) Shop.accepting "pw" "pw" "tok"
                  Shop.anonymous) Shop.w0.
Proof.
  split.
  - destruct (resetPassword_logs_in (select ["id"; "email"]) Shop.accepting "pw" "pw" "tok"
                Shop.anonymous Shop.w0) as [_ H].
    destruct (H (reset_user Shop.accepting "pw" Shop.carol) eq_refl)
      as (_ & signed & He & Hs & _).
    rewrite He, (Hs eq_refl). apply list_elem_of_In. simpl. auto.
  - destruct (resetPassword_logs_in (select ["email"]) Shop.accepting "pw" "pw" "tok"
                Shop.anonymous Shop.w0) as [_ H].
    destruct (H (reset_user Shop.accepting "pw" Shop.carol) eq_refl)
      as (_ & signed & He & _ & Hs).
    rewrite He, (Hs eq_refl). apply list_elem_of_In. simpl. auto.
Defined.

(** X11.  A token issued by requestReset is good for two hours, not one.
    When no user held the issued token before, a resetPassword with that
    token succeeds at every time up to [now + 7200000] of the request, for
    the user the token was issued to (same id, the new hashed password,
    token cleared), and ends with the invalid-or-expired error at every
    later time. *)
Theorem reset_window_is_two_hours info env env' email pw ctx ctx' w u :
  find_user (ByEmail email) (users (db w)) = Some u →
  (∀ v, v ∈ users (db w) → User.resetToken v ≠ Some (randomBytes_hex env)) →
  let w1 := (Mutations.requestReset env email ctx w).2 in
  let run := Mutations.resetPassword info env' pw pw (randomBytes_hex env) ctx' w1 in
  (now env' ≤ now env + 7200000 →
   ∃ u', run.1 = inr u' ∧ User.id u' = User.id u ∧
         User.password u' = bcrypt_hash env' pw ∧ User.resetToken u' = None) ∧
  (now env + 7200000 < now env' →
   run.1 = inl (Error "This token is either invalid or expired!")).
Proof.
  intros Hu Hfresh w1 run.
  assert (users (db w1)
          = replace_first (matches_user (ByEmail email)) (with_reset_token env u)
              (users (db w))) as Hw1.
  { unfold w1. rewrite requestReset_run, Hu. cbv zeta.
    by destruct (transport_sendMail env _). }
  pose proof (find_user_by_email_email _ _ _ Hu) as Hmail.
  assert (reset_candidates env' (randomBytes_hex env) (db w1)
          = if decide (now env' - 3600000 ≤ now env + 3600000)
            then [with_reset_token env u] else []) as Hcand.
  { unfold reset_candidates. rewrite Hw1.
    rewrite (filter_replace_first_only _ _ _ _ u); [| |exact Hu].
    - destruct (decide (token_filter _ _ (with_reset_token env u) = true)) as [Ht|Ht];
        destruct (decide (now env' - 3600000 ≤ now env + 3600000)) as [Hle|Hle]; try done.
      + apply token_filter_true in Ht as (_ & e & [= <-] & ?). lia.
      + destruct Ht. apply token_filter_true. simpl. eauto.
    - intros v Hv (Ht & _)%token_filter_true. by apply (Hfresh v). }
  pose proof (resetPassword_run info env' pw pw (randomBytes_hex env) ctx' w1) as Hrun.
  cbv zeta in Hrun. fold run in Hrun.
  rewrite bool_decide_eq_false_2 in Hrun by (intros H; by apply H).
  rewrite Hcand in Hrun. split; intros Ht.
  - rewrite decide_True in Hrun by lia. simpl in Hrun.
    rewrite Hw1 in Hrun. simpl in Hrun.
    change (find (λ u0, bool_decide (User.email u0 = User.email u)) ?l)
      with (find (matches_user (ByEmail (User.email u))) l) in Hrun.
    rewrite Hmail in Hrun.
    rewrite (find_replace_first _ _ _ u) in Hrun;
      [| exact Hu | by apply bool_decide_eq_true ].
    rewrite Hrun. simpl. eauto.
  - rewrite decide_False in Hrun by lia. by rewrite Hrun.
Qed.

Lemma reset_window_is_two_hours_witness :
  let later := mkEnv (3601000 + 7200000) (λ p, "hash:" +:+ p) (λ i, "jwt:" +:+ default "" i) "ffff"
                 "http://shop.test" (λ s, s) (λ _, inr tt) (λ _, inl (Error "unused")) in
  let w1 := (Mutations.requestReset Shop.accepting "alice@shop.test" Shop.anonymous Shop.w0).2 in
  ∃ u', (Mutations.resetPassword (select ["id"]) later "new" "new" "abcdef"
           Shop.anonymous w1).1 = inr u' ∧
        User.id u' = "u1" ∧ User.password u' = "hash:new".
Proof.
  simpl.
  destruct (reset_window_is_two_hours (select ["id"]) Shop.accepting
              (mkEnv (3601000 + 7200000) (λ p, "hash:" +:+ p) (λ i, "jwt:" +:+ default "" i) "ffff"
                 "http://shop.test" (λ s, s) (λ _, inr tt) (λ _, inl (Error "unused")))
              "alice@shop.test" "new" Shop.anonymous Shop.anonymous Shop.w0 Shop.alice eq_refl)
    as [H _].
  - intros v Hv%list_elem_of_In. simpl in Hv.
    destruct Hv as [<-|[<-|[<-|[]]]]; done.
  - destruct H as (u' & Hr & Hi & Hp & _); [by vm_compute|]. eauto.
Defined.

(** X12.  A reset token works once.  With unique emails and at most one
    user holding the token, after a resetPassword that succeeded no user
    holds the token any more, and every later resetPassword with it, at
    whatever time and with whatever password, ends with the
    invalid-or-expired error. *)
Theorem reset_token_single_use info info' env env' pw pw2 tok ctx ctx' w u' :
  NoDup (map User.email (users (db w))) →
  (∀ v1 v2, v1 ∈ users (db w) → v2 ∈ users (db w) →
            User.resetToken v1 = Some tok → User.resetToken v2 = Some tok → v1 = v2) →
  (Mutations.resetPassword info env pw pw tok ctx w).1 = inr u' →
  let w1 := (Mutations.resetPassword info env pw pw tok ctx w).2 in
  (∀ v, v ∈ users (db w1) → User.resetToken v ≠ Some tok) ∧
  (Mutations.resetPassword info' env' pw2 pw2 tok ctx' w1).1
  = inl (Error "This token is either invalid or expired!").
Proof.
  intros Hnd Hone Hres w1.
  pose proof (resetPassword_run info env pw pw tok ctx w) as Hrun. cbv zeta in Hrun.
  rewrite bool_decide_eq_false_2 in Hrun by (intros H; by apply H).
  destruct (head (reset_candidates env tok (db w))) as [user|] eqn:Huser;
    [|by rewrite Hrun in Hres].
  apply head_filter_elem in Huser as [Hin (Htok & _)%token_filter_true].
  assert (find_user (ByEmail (User.email user)) (users (db w)) = Some user) as Hfind
    by apply (find_unique User.email _ user Hnd Hin).
  rewrite Hfind in Hrun.
  assert (∀ v, v ∈ users (db w1) → User.resetToken v ≠ Some tok) as Hgone.
  { unfold w1. rewrite Hrun. simpl.
    destruct (replace_first_split (matches_user (ByEmail (User.email user)))
                (reset_user env pw user) _ _ Hfind) as (l1 & l2 & E1 & E2).
    rewrite E2. intros v Hv Hv'.
    assert (v ∈ users (db w)) as Hvin.
    { rewrite E1. rewrite !elem_of_app, !elem_of_cons in *.
      destruct Hv as [?|[->|?]]; [tauto | done | tauto]. }
    pose proof (Hone v user Hvin Hin Hv' Htok) as ->.
    rewrite E1 in Hnd. rewrite map_app in Hnd. simpl in Hnd.
    apply NoDup_app in Hnd as (_ & Hd1 & Hd2). apply NoDup_cons in Hd2 as [Hd2 _].
    rewrite !elem_of_app, !elem_of_cons in Hv.
    destruct Hv as [Hv|[Hv|Hv]].
    - apply (Hd1 (User.email user)); [by apply (list_elem_of_fmap_2 User.email) | left].
    - by rewrite Hv in Hv'.
    - apply Hd2. by apply (list_elem_of_fmap_2 User.email). }
  split; [done|].
  rewrite resetPassword_run.
  rewrite bool_decide_eq_false_2 by (intros H; by apply H).
  unfold reset_candidates. rewrite filter_none; [done|].
  intros v Hv (Ht & _)%token_filter_true. by apply (Hgone v).
Qed.

Lemma reset_token_single_use_witness :
  let w1 := (Mutations.resetPassword (select ["id"]) Shop.accepting "pw" "pw" "tok"
               Shop.anonymous Shop.w0).2 in
  (Mutations.resetPassword (select ["id"]) Shop.accepting "pw2" "pw2" "tok" Shop.anonymous w1).1
  = inl (Error "This token is either invalid or expired!").
Proof.
  simpl.
  refine (proj2 (reset_token_single_use (select ["id"]) (select ["id"])
                   Shop.accepting Shop.accepting "pw" "pw2" "tok"
                   Shop.anonymous Shop.anonymous Shop.w0
                   (reset_user Shop.accepting "pw" Shop.carol) _ _ eq_refl)).
  - apply (bool_decide_unpack _). by vm_compute.
  - intros v1 v2 H1%list_elem_of_In H2%list_elem_of_In. simpl in H1, H2.
    destruct H1 as [<-|[<-|[<-|[]]]]; destruct H2 as [<-|[<-|[<-|[]]]]; done.
Defined.

(** ** createOrder: what it does not do *)

Lemma filter_all {A} (P : A → Prop) `{∀ x, Decision (P x)} (l : list A) :
  (∀ x, x ∈ l → P x) → filter P l = l.
Proof.
  induction l as [|x l IH]; intros Ha; [done|].
  rewrite filter_cons. destruct (decide (P x)) as [_|Hn].
  - f_equal. apply IH. intros y Hy. apply Ha. by right.
  - destruct Hn. apply Ha. left.
Qed.

Lemma reduce_total_inl cart tally e :
  reduce_total cart tally = inl e → e = TypeError "Cannot read property 'price' of null".
Proof.
  revert tally. induction cart as [|c cart IH]; intros tally; simpl; [done|].
  destruct (CartView.item c); [apply IH | by intros [= <-]].
Qed.

(** X13.  createOrder requests no charge and writes nothing unless the
    identity exists and every line of its cart still has its item: with an
    unknown userId, or with a cart line whose item is gone, it queries the
    cart, ends with a TypeError, and the payment service is not called. *)
Theorem createOrder_no_charge_without_items env tok ctx w uid :
  Request.userId ctx = Some uid → uid ≠ "" →
  find_user (ById uid) (users (db w)) = None ∨ ¬ items_present (cart_of (db w) uid) →
  let run := Mutations.createOrder env tok ctx w in
  (∃ msg, run.1 = inl (TypeError msg)) ∧
  db run.2 = db w ∧
  effects_of (Mutations.createOrder env tok ctx) w = [DbE (QueryUserCart uid)].
Proof.
  intros Hid Hne Hbad run.
  pose proof (createOrder_run env tok ctx w uid Hid Hne) as Hrun.
  cbv zeta in Hrun. fold run in Hrun.
  destruct (find_user (ById uid) (users (db w))) as [u|].
  2:{ rewrite (effects_of_more _ _ _ _ Hrun). rewrite Hrun. split_and!; eauto. }
  destruct Hbad as [?|Hbad]; [done|].
  destruct (reduce_total _ 0) as [e|n] eqn:Hred.
  - rewrite (effects_of_more _ _ _ _ Hrun). rewrite Hrun.
    apply reduce_total_inl in Hred as ->. split_and!; eauto.
  - destruct Hbad. by eapply reduce_total_inr.
Qed.

Lemma createOrder_no_charge_without_items_witness :
  let d := set_items [Shop.coat] Shop.db0 in
  (Mutations.createOrder Shop.accepting "tok_visa" (Shop.as_user Shop.alice) (mkWorld d [])).1
  = inl (TypeError "Cannot read property 'price' of null") ∧
  db (Mutations.createOrder Shop.accepting "tok_visa" (Shop.as_user Shop.alice)
        (mkWorld d [])).2 = d.
Proof.
  simpl. assert (Hne : "u1" ≠ "") by done.
  destruct (createOrder_no_charge_without_items Shop.accepting "tok_visa"
              (Shop.as_user Shop.alice) (mkWorld (set_items [Shop.coat] Shop.db0) []) "u1"
              eq_refl Hne) as (_ & Hd & _).
  - right. intros H. apply Forall_cons in H as [[it Hit] _]. by vm_compute in Hit.
  - split; [reflexivity | exact Hd].
Defined.

(** X14.  createOrder does not refuse an empty cart: for an identity that
    exists and has no cart item it requests a charge of 0 USD, and when the
    payment service accepts it stores an order without items, with the
    amount of the charge as total, and leaves the cart table as it is. *)
Theorem createOrder_empty_cart env tok ctx w uid :
  Request.userId ctx = Some uid → uid ≠ "" →
  is_Some (find_user (ById uid) (users (db w))) →
  cart_rows (db w) uid = [] →
  let run := Mutations.createOrder env tok ctx w in
  StripeE (ChargeRequest.mk 0 "USD" tok) ∈ effects_of (Mutations.createOrder env tok ctx) w ∧
  ∀ ch, stripe_charges_create env (ChargeRequest.mk 0 "USD" tok) = inr ch →
    ∃ o, run.1 = inr o ∧ Order.items o = [] ∧ Order.total o = Charge.amount ch ∧
         orders (db run.2) = orders (db w) ++ [o] ∧
         cartItems (db run.2) = cartItems (db w).
Proof.
  intros Hid Hne [u Hu] Hempty run.
  pose proof (createOrder_run env tok ctx w uid Hid Hne) as Hrun.
  cbv zeta in Hrun. fold run in Hrun. unfold cart_of in Hrun.
  rewrite Hu, Hempty in Hrun. simpl in Hrun.
  destruct (stripe_charges_create env (ChargeRequest.mk 0 "USD" tok)) as [e|ch] eqn:Hch.
  - rewrite (effects_of_more _ _ _ _ Hrun). split; [list_mem | done].
  - rewrite (effects_of_log_more _ _ _ _ _ Hrun). split; [list_mem|].
    intros ch' [= <-]. rewrite Hrun. simpl. eexists. split_and!; try done.
    apply filter_all. intros c _. apply not_elem_of_nil.
Qed.

Lemma createOrder_empty_cart_witness :
  ∃ o, (Mutations.createOrder Shop.accepting "tok_visa" (Shop.as_user Shop.carol) Shop.w0).1
       = inr o ∧ Order.items o = [] ∧ Order.total o = 0.
Proof.
  assert (Hne : "u3" ≠ "") by done.
  destruct (createOrder_empty_cart Shop.accepting "tok_visa" (Shop.as_user Shop.carol)
              Shop.w0 "u3" eq_refl Hne) as [_ H].
  - vm_compute. eauto.
  - reflexivity.
  - destruct (H (Charge.mk "ch_1" 0) eq_refl) as (o & Hr & Hi & Ht & _). eauto.
Defined.

(** X15.  A checkout that returns an order leaves the caller without cart
    items, and adds none to the table: every cart item left was there
    before and belongs to somebody else. *)
Theorem createOrder_clears_cart env tok ctx w o :
  (Mutations.createOrder env tok ctx w).1 = inr o →
  ∃ uid, Request.userId ctx = Some uid ∧
         cart_rows (db (Mutations.createOrder env tok ctx w).2) uid = [] ∧
         ∀ c, c ∈ cartItems (db (Mutations.createOrder env tok ctx w).2) →
              c ∈ cartItems (db w) ∧ CartItem.user c ≠ uid.
Proof.
  intros Hres.
  destruct (userId_cases ctx) as [Hf|(uid & Hid & Hne)].
  { by rewrite (createOrder_guard env tok ctx w Hf) in Hres. }
  exists uid. split; [done|]. revert Hres.
  rewrite (createOrder_run env tok ctx w uid Hid Hne). cbv zeta.
  destruct (find_user (ById uid) (users (db w))) as [u|]; [|done].
  destruct (reduce_total _ 0) as [e|n]; [done|].
  destruct (stripe_charges_create env (ChargeRequest.mk n "USD" tok)) as [e|ch]; [done|].
  simpl. intros _. rewrite cart_of_ids.
  assert (∀ c, c ∈ filter (λ c, CartItem.id c ∉ map CartItem.id (cart_rows (db w) uid))
                     (cartItems (db w)) →
               c ∈ cartItems (db w) ∧ CartItem.user c ≠ uid) as Hleft.
  { intros c [Hn Hc]%list_elem_of_filter. split; [done|]. intros Hu. apply Hn.
    apply (list_elem_of_fmap_2 CartItem.id). unfold cart_rows. by apply list_elem_of_filter. }
  split; [|done].
  unfold cart_rows at 1. simpl. apply filter_none. intros c Hc Hu.
  rewrite ?cart_of_ids in Hc. by destruct (Hleft c Hc).
Qed.

Lemma createOrder_clears_cart_witness :
  cart_rows (db (Mutations.createOrder Shop.accepting "tok_visa" (Shop.as_user Shop.alice)
                   Shop.w0).2) "u1" = [].
Proof.
  destruct (createOrder_clears_cart Shop.accepting "tok_visa" (Shop.as_user Shop.alice)
              Shop.w0 _ eq_refl) as (uid & [= <-] & H & _).
  exact H.
Defined.

(** ** The cart: how the calls compose *)

Lemma find_app_fresh {A} `{EqDecision B} (f : A → B) (l : list A) c :
  f c ∉ map f l → find (λ x, bool_decide (f x = f c)) (l ++ [c]) = Some c.
Proof.
  induction l as [|y l IH]; simpl; intros Hn.
  - by rewrite bool_decide_eq_true_2.
  - apply not_elem_of_cons in Hn as [Hne Hn].
    rewrite bool_decide_eq_false_2 by done. by apply IH.
Qed.

Lemma replace_first_app_fresh {A} `{EqDecision B} (f : A → B) (l : list A) c new :
  f c ∉ map f l →
  replace_first (λ x, bool_decide (f x = f c)) new (l ++ [c]) = l ++ [new].
Proof.
  induction l as [|y l IH]; simpl; intros Hn.
  - by rewrite bool_decide_eq_true_2.
  - apply not_elem_of_cons in Hn as [Hne Hn].
    rewrite bool_decide_eq_false_2 by done. f_equal. by apply IH.
Qed.

Lemma filter_out_app_fresh {A} `{EqDecision B} (f : A → B) (l : list A) c :
  f c ∉ map f l → filter (λ x, f x ≠ f c) (l ++ [c]) = l.
Proof.
  intros Hn. rewrite filter_app, filter_all.
  - rewrite filter_cons. destruct (decide (f c ≠ f c)); [done|]. by rewrite app_nil_r.
  - intros x Hx Hf. apply Hn. rewrite <- Hf. by apply (list_elem_of_fmap_2 f).
Qed.

(** The first addToCart of an item the caller does not have yet. *)
Lemma addToCart_first i ctx w uid :
  Request.userId ctx = Some uid → uid ≠ "" →
  filter (λ c, CartItem.user c = uid ∧ CartItem.item c = i) (cartItems (db w)) = [] →
  user_exists uid (db w) = true → item_exists i (db w) = true →
  let c := CartItem.mk (gen_id (next_id (db w))) 1 uid i in
  Mutations.addToCart i ctx w =
    (inr c,
     mkWorld (set_cartItems (cartItems (db w) ++ [c]) (bump (db w)))
             (log w ++ [DbE (QueryCartItems uid i);
                        DbE (CreateCartItem
                               (<["item" := VConnect i]> (<["user" := VConnect uid]> ∅)))])).
Proof.
  intros Hid Hne Hmine Hu Hi. rewrite (addToCart_run i ctx w uid Hid Hne). cbv zeta.
  by rewrite Hmine, Hu, Hi.
Qed.

(** X16.  Adding the same item twice gives one row with quantity 2, not two
    rows: for a caller that exists and has no row for an item that exists,
    and an id supply that is fresh for the table, the second addToCart
    returns the row the first one created with quantity 2, and the table is
    the original one with that single row appended. *)
Theorem addToCart_twice i ctx w uid :
  Request.userId ctx = Some uid → uid ≠ "" →
  filter (λ c, CartItem.user c = uid ∧ CartItem.item c = i) (cartItems (db w)) = [] →
  user_exists uid (db w) = true → item_exists i (db w) = true →
  gen_id (next_id (db w)) ∉ map CartItem.id (cartItems (db w)) →
  let w1 := (Mutations.addToCart i ctx w).2 in
  let c2 := CartItem.mk (gen_id (next_id (db w))) 2 uid i in
  (Mutations.addToCart i ctx w1).1 = inr c2 ∧
  cartItems (db (Mutations.addToCart i ctx w1).2) = cartItems (db w) ++ [c2].
Proof.
  intros Hid Hne Hmine Hu Hi Hfresh w1 c2.
  pose proof (addToCart_first i ctx w uid Hid Hne Hmine Hu Hi) as H1. cbv zeta in H1.
  set (c := CartItem.mk (gen_id (next_id (db w))) 1 uid i) in *.
  assert (cartItems (db w1) = cartItems (db w) ++ [c]) as Hw1 by (unfold w1; by rewrite H1).
  rewrite (addToCart_run i ctx w1 uid Hid Hne). cbv zeta. rewrite Hw1.
  rewrite filter_app, Hmine. simpl. rewrite filter_cons.
  destruct (decide (CartItem.user c = uid ∧ CartItem.item c = i)) as [_|Hn];
    [|by destruct Hn]. simpl.
  change (find_cartItem (gen_id (next_id (db w))) ?l)
    with (find (λ x, bool_decide (CartItem.id x = CartItem.id c)) l).
  rewrite (find_app_fresh CartItem.id _ c Hfresh). simpl.
  split; [done|].
  apply (replace_first_app_fresh CartItem.id _ c c2 Hfresh).
Qed.

Lemma addToCart_twice_witness :
  let w1 := (Mutations.addToCart "i2" (Shop.as_user Shop.bob) Shop.w0).2 in
  (Mutations.addToCart "i2" (Shop.as_user Shop.bob) w1).1 = inr (CartItem.mk "id7" 2 "u2" "i2").
Proof.
  simpl. assert (Hne : "u2" ≠ "") by done.
  refine (proj1 (addToCart_twice "i2" (Shop.as_user Shop.bob) Shop.w0 "u2" eq_refl Hne
                   eq_refl eq_refl eq_refl _)).
  apply (bool_decide_unpack _). by vm_compute.
Defined.

(** X17.  removeFromCart undoes addToCart: under the same conditions, removing
    the row a first addToCart returned, by its id and as the same caller,
    returns that row and gives back the cart table as it was before the
    two calls. *)
Theorem addToCart_then_removeFromCart i ctx w uid :
  Request.userId ctx = Some uid → uid ≠ "" →
  filter (λ c, CartItem.user c = uid ∧ CartItem.item c = i) (cartItems (db w)) = [] →
  user_exists uid (db w) = true → item_exists i (db w) = true →
  gen_id (next_id (db w)) ∉ map CartItem.id (cartItems (db w)) →
  ∃ c, (Mutations.addToCart i ctx w).1 = inr c ∧
       let w1 := (Mutations.addToCart i ctx w).2 in
       (Mutations.removeFromCart (CartItem.id c) ctx w1).1 = inr c ∧
       cartItems (db (Mutations.removeFromCart (CartItem.id c) ctx w1).2) = cartItems (db w).
Proof.
  intros Hid Hne Hmine Hu Hi Hfresh.
  pose proof (addToCart_first i ctx w uid Hid Hne Hmine Hu Hi) as H1. cbv zeta in H1.
  set (c := CartItem.mk (gen_id (next_id (db w))) 1 uid i) in *.
  exists c. rewrite H1. simpl. rewrite removeFromCart_run. simpl.
  change (find_cartItem (gen_id (next_id (db w))) ?l)
    with (find (λ x, bool_decide (CartItem.id x = CartItem.id c)) l).
  rewrite (find_app_fresh CartItem.id _ c Hfresh).
  unfold strict_eq. rewrite Hid. rewrite bool_decide_eq_true_2 by done. simpl.
  split_and!; try done.
  apply (filter_out_app_fresh CartItem.id _ c Hfresh).
Qed.

Lemma addToCart_then_removeFromCart_witness :
  ∃ c, (Mutations.addToCart "i2" (Shop.as_user Shop.bob) Shop.w0).1 = inr c ∧
       cartItems (db (Mutations.removeFromCart (CartItem.id c) (Shop.as_user Shop.bob)
                        (Mutations.addToCart "i2" (Shop.as_user Shop.bob) Shop.w0).2).2)
       = cartItems Shop.db0.
Proof.
  assert (Hne : "u2" ≠ "") by done.
  destruct (addToCart_then_removeFromCart "i2" (Shop.as_user Shop.bob) Shop.w0 "u2" eq_refl
              Hne eq_refl eq_refl eq_refl) as (c & Hc & H).
  - apply (bool_decide_unpack _). by vm_compute.
  - cbv zeta in H. destruct H as [_ H]. exists c. split; [exact Hc | exact H].
Defined.

(** ** createItem *)

Lemma createItem_run args ctx w uid :
  Request.userId ctx = Some uid → uid ≠ "" →
  let data := args ∪ {[ "user" := VConnect uid ]} in
  Mutations.createItem args ctx w =
    match item_of_data (gen_id (next_id (db w))) data with
    | None => (inl (Rejected "prisma" "invalid ItemCreateInput"),
               log_more [DbE (CreateItem data)] w)
    | Some it =>
        if user_exists (Item.user it) (db w)
        then (inr it,
              mkWorld (set_items (items (db w) ++ [it]) (bump (db w)))
                      (log w ++ [DbE (CreateItem data)]))
        else (inl (Rejected "prisma" "no User to connect"),
              log_more [DbE (CreateItem data)] w)
    end.
Proof.
  intros Hid Hne data.
  unfold Mutations.createItem.
  rewrite Hid.
  rewrite (falsy_false _ Hne).
  fold data.
  generalize data. clear data. intros data.
  unfold db_mutation_createItem, bind, emit, get_db, put_db, ret, prisma_rejects, throw,
    log_more.
  cbn [db log fst snd].
  destruct (item_of_data (gen_id (next_id (db w))) data) as [it|]; [|reflexivity].
  destruct (user_exists (Item.user it) (db w)); reflexivity.
Qed.
Lemma item_of_data_fields i data it :
  item_of_data i data = Some it →
  Item.id it = i ∧
  data !! "title" = Some (VStr (Item.title it)) ∧
  data !! "description" = Some (VStr (Item.description it)) ∧
  data !! "price" = Some (VNum (Item.price it)) ∧
  data !! "user" = Some (VConnect (Item.user it)).
Proof.
  unfold item_of_data. destruct (only_keys _ data); [|done].
  unfold str_field, num_field, connect_field.
  destruct (data !! "title") as [[| |t| |]|]; try done. simpl.
  destruct (data !! "description") as [[| |d| |]|]; try done. simpl.
  destruct (data !! "price") as [[|p| | |]|]; try done. simpl.
  destruct (upd_opt_str "image" data None) as [im|]; try done. simpl.
  destruct (upd_opt_str "largeImage" data None) as [li|]; try done. simpl.
  destruct (data !! "user") as [[| | |u|]|]; try done. simpl.
  by intros [= <-].
Qed.

(** X18.  An item createItem returns gets the next id of the supply, is
    appended to the items table (nothing else changes), and has the title,
    description and price of the arguments.  Its owner is the caller when
    the arguments have no user property; a user property among the arguments
    replaces the caller, since the arguments are spread after [user]. *)
Theorem createItem_owner args ctx w uid it :
  Request.userId ctx = Some uid → uid ≠ "" →
  (Mutations.createItem args ctx w).1 = inr it →
  let run := Mutations.createItem args ctx w in
  Item.id it = gen_id (next_id (db w)) ∧
  items (db run.2) = items (db w) ++ [it] ∧
  users (db run.2) = users (db w) ∧ cartItems (db run.2) = cartItems (db w) ∧
  orders (db run.2) = orders (db w) ∧
  args !! "title" = Some (VStr (Item.title it)) ∧
  args !! "description" = Some (VStr (Item.description it)) ∧
  args !! "price" = Some (VNum (Item.price it)) ∧
  (args !! "user" = None → Item.user it = uid) ∧
  (∀ v, args !! "user" = Some (VConnect v) → Item.user it = v).
Proof.
  intros Hid Hne Hres run. revert Hres. unfold run.
  rewrite (createItem_run args ctx w uid Hid Hne). cbv zeta.
  destruct (item_of_data _ _) as [it'|] eqn:Hit; [|done].
  destruct (user_exists _ _); [|done]. simpl. intros [= ->].
  apply item_of_data_fields in Hit as (Hi & Ht & Hd & Hp & Hu).
  assert (∀ k, k ≠ "user" →
            (args ∪ {["user" := VConnect uid]}) !! k = args !! k) as Hother.
  { intros k Hk. rewrite lookup_union, lookup_singleton_ne by done.
    by destruct (args !! k). }
  rewrite Hother in Ht, Hd, Hp by done.
  split_and!; try done.
  - intros Hn. rewrite lookup_union, Hn, lookup_singleton_eq in Hu. simpl in Hu.
    by injection Hu as <-.
  - intros v Hv. rewrite lookup_union, Hv, lookup_singleton_eq in Hu. simpl in Hu.
    by injection Hu as <-.
Qed.

Lemma createItem_owner_witness :
  ∃ it, (Mutations.createItem
           (<["title" := VStr "Hat"]> (<["price" := VNum 7]> (<["description" := VStr "d"]> ∅)))
           (Shop.as_user Shop.alice) Shop.w0).1 = inr it ∧
        Item.user it = "u1" ∧ Item.id it = "id7".
Proof.
  assert (Hne : "u1" ≠ "") by done.
  assert (Hres : (Mutations.createItem
                    (<["title" := VStr "Hat"]>
                     (<["price" := VNum 7]> (<["description" := VStr "d"]> ∅)))
                    (Shop.as_user Shop.alice) Shop.w0).1
                 = inr (Item.mk "id7" "Hat" "d" 7 None None "u1")) by (by vm_compute).
  exists (Item.mk "id7" "Hat" "d" 7 None None "u1"). split; [exact Hres|].
  destruct (createItem_owner _ (Shop.as_user Shop.alice) Shop.w0 "u1" _ eq_refl Hne Hres)
    as (Hi & _ & _ & _ & _ & _ & _ & _ & Hu & _).
  split; [by apply Hu | exact Hi].
Defined.

(** ** signin *)

(** X20.  signin never writes to the database and sets the session cookie
    only for a password that matches.  An unknown email ends with 'No such
    user found for email ...' and a wrong password with 'Invalid password',
    in both cases after the one query and without a cookie; a matching
    password returns the user of that email and sets one cookie named token
    with the signed id of that user for 31536000000 ms. *)
Theorem signin_outcome compare env email password ctx w :
  let run := Auth.signin compare env email password ctx w in
  let trace := effects_of (Auth.signin compare env email password ctx) w in
  let q := DbE (QueryUser (ByEmail email)) in
  db run.2 = db w ∧
  (find_user (ByEmail email) (users (db w)) = None →
   run.1 = inl (Error ("No such user found for email " +:+ email)) ∧ trace = [q]) ∧
  (∀ u, find_user (ByEmail email) (users (db w)) = Some u →
        compare password (User.password u) = false →
        run.1 = inl (Error "Invalid password") ∧ trace = [q]) ∧
  (∀ u, find_user (ByEmail email) (users (db w)) = Some u →
        compare password (User.password u) = true →
        run.1 = inr u ∧ User.email u = email ∧
        trace = [q; CookieE "token" (jwt_sign env (Some (User.id u))) 31536000000]).
Proof.
  intros run trace q.
  unfold trace, run, effects_of, Auth.signin, bind, db_query_user, bind, emit, get_db, ret,
    throw. simpl.
  destruct (find _ (users (db w))) as [u|] eqn:Hu; simpl.
  - apply find_some in Hu as [_ Hu%bool_decide_eq_true].
    destruct (compare password (User.password u)) eqn:Hc; simpl;
      rewrite <- ?app_assoc, drop_app_length;
      (split_and!; [done | done | intros u' [= <-] E | intros u' [= <-] E]);
      try done; congruence.
  - rewrite drop_app_length. split_and!; done.
Qed.

Lemma signin_outcome_witness :
  (Auth.signin (λ p h, bool_decide (h = "h1" ∧ p = "secret")) Shop.accepting
     "alice@shop.test" "secret" Shop.anonymous Shop.w0).1 = inr Shop.alice ∧
  (Auth.signin (λ p h, bool_decide (h = "h1" ∧ p = "secret")) Shop.accepting
     "alice@shop.test" "guess" Shop.anonymous Shop.w0).1 = inl (Error "Invalid password").
Proof.
  split.
  - destruct (signin_outcome (λ p h, bool_decide (h = "h1" ∧ p = "secret")) Shop.accepting
                "alice@shop.test" "secret" Shop.anonymous Shop.w0) as (_ & _ & _ & H).
    by destruct (H Shop.alice eq_refl eq_refl) as [Hr _].
  - destruct (signin_outcome (λ p h, bool_decide (h = "h1" ∧ p = "secret")) Shop.accepting
                "alice@shop.test" "guess" Shop.anonymous Shop.w0) as (_ & _ & H & _).
    by destruct (H Shop.alice eq_refl eq_refl) as [Hr _].
Defined.

(** ** createOrder: the order of its calls *)

(** X21.  createOrder calls the payment service at most once, after the one
    cart query and before any write: the calls of a run are nothing, or the
    query, or the query and the charge, or the query, the charge, one
    createOrder with the amount and id of the charge, and one
    deleteManyCartItems, in this order.  Only the last shape returns an
    order. *)
Theorem createOrder_call_sequence env tok ctx w :
  let run := Mutations.createOrder env tok ctx w in
  let trace := effects_of (Mutations.createOrder env tok ctx) w in
  (trace = [] ∧ ∃ e, run.1 = inl e) ∨
  (∃ uid, trace = [DbE (QueryUserCart uid)] ∧ ∃ e, run.1 = inl e) ∨
  (∃ uid req, trace = [DbE (QueryUserCart uid); StripeE req] ∧ ∃ e, run.1 = inl e) ∨
  (∃ uid req ch o its ids,
     trace = [DbE (QueryUserCart uid); StripeE req;
              DbE (CreateOrder (Charge.amount ch) (Charge.id ch) its uid);
              DbE (DeleteManyCartItems ids)] ∧
     stripe_charges_create env req = inr ch ∧
     run.1 = inr o ∧ Order.items o = its ∧ Order.user o = uid).
Proof.
  intros run trace. unfold trace, run.
  destruct (userId_cases ctx) as [Hf|(uid & Hid & Hne)].
  { left. rewrite (effects_of_same _ _ _ (createOrder_guard env tok ctx w Hf)).
    rewrite (createOrder_guard env tok ctx w Hf). eauto. }
  right. pose proof (createOrder_run env tok ctx w uid Hid Hne) as Hrun. cbv zeta in Hrun.
  destruct (find_user (ById uid) (users (db w))) as [u|].
  2:{ left. exists uid. rewrite (effects_of_more _ _ _ _ Hrun), Hrun. eauto. }
  destruct (reduce_total _ 0) as [e|n].
  { left. exists uid. rewrite (effects_of_more _ _ _ _ Hrun), Hrun. eauto. }
  destruct (stripe_charges_create env (ChargeRequest.mk n "USD" tok)) as [e|ch] eqn:Hch.
  { right. left. eexists uid, _. rewrite (effects_of_more _ _ _ _ Hrun), Hrun. eauto. }
  right. right. eexists uid, _, ch, _, _, _.
  rewrite (effects_of_log_more _ _ _ _ _ Hrun), Hrun. simpl. split_and!; done.
Qed.
